(** * dstat: job-status projection, formatting and the poll loop

    A shallow embedding of [dsub/commands/dstat.py].

    - Python values that flow through task records are the inductive
      [pyval]; truthiness ([not v], [if v]) is [truthy].
    - A Python [dict]/[OrderedDict] keyed by strings is the list of its
      entries in the order written, with [dict_set] for [d[k] = v]; the
      order in which a plain [dict] iterates is computed apart, by
      [iter_keys].
    - Code that can raise returns [result]; the formatter operations are
      chained with the bind notation of that error monad.
    - The generator [dstat_job_producer] is a two-state machine
      (POLLING / DONE) that emits [Yield], [Sleep] and [Raised] events; the
      provider is the sequence of answers it gives to successive lookups. *)

From Stdlib Require Import String Ascii List ZArith Bool Lia.
From Stdlib Require Import Permutation Sorted.
From Stdlib Require OrderedTypeEx.
Import ListNotations.
Local Open Scope string_scope.
Local Open Scope list_scope.
Local Open Scope Z_scope.

(** ** Python values *)

(** The values a task field can hold: [None], booleans, integers, strings,
    [datetime] objects (carried as their [str()] form) and name-to-string
    mappings (inputs, outputs, envs, labels). *)
Inductive pyval : Type :=
  | VNone
  | VBool (b : bool)
  | VInt (n : Z)
  | VStr (s : string)
  | VDatetime (iso : string)
  | VMap (items : list (string * string)).

(** Python truth value testing. A [datetime] is always true. *)
Definition truthy (v : pyval) : bool :=
  match v with
  | VNone => false
  | VBool b => b
  | VInt n => negb (n =? 0)
  | VStr s => negb (s =? "")%string
  | VDatetime _ => true
  | VMap items => match items with [] => false | _ :: _ => true end
  end.

(** [v == lit] for a string literal [lit]: only a string can be equal to it. *)
Definition eq_str (v : pyval) (lit : string) : bool :=
  match v with
  | VStr s => (s =? lit)%string
  | _ => false
  end.

(** Exceptions: those the formatter code raises on ill-typed field values,
    and the one [time.sleep] raises on a negative argument. *)
Inductive exn : Type :=
  | TypeError
  | AttributeError
  | IOError.

Inductive result (A : Type) : Type :=
  | Ok (a : A)
  | Raise (e : exn).
Arguments Ok {A} a.
Arguments Raise {A} e.

Definition bind {A B : Type} (m : result A) (k : A -> result B) : result B :=
  match m with
  | Ok a => k a
  | Raise e => Raise e
  end.

Notation "x <- m ;; k" := (bind m (fun x => k))
  (at level 61, m at next level, right associativity).

(** ** Strings *)



Definition len (s : string) : Z := Z.of_nat (String.length s).

(** The end index of the slice [s[:stop]]: a negative [stop] counts from the
    end of the string, and the index is clamped to [0 .. len s]. *)
Definition slice_stop (n stop : Z) : Z :=
  if stop <? 0 then Z.max 0 (stop + n) else Z.min stop n.

(** [s[:stop]] *)
Definition slice_to (s : string) (stop : Z) : string :=
  substring 0 (Z.to_nat (slice_stop (len s) stop)) s.

(** [sep.join(ls)] *)
Definition join (sep : string) (ls : list string) : string :=
  String.concat sep ls.

(** ** Dictionaries

    A dictionary is kept as the list of its entries in the order in which
    the keys were first written. Lookup, membership and update do not depend
    on that order. An [OrderedDict] iterates in that order; a plain [dict]
    iterates in the order of the interpreter's hash table, which
    [dict_iter_order] below computes from the sequence of insertions. *)

Definition dict (V : Type) : Type := list (string * V).

Section Dict.
Context {V : Type}.

(** [d.get(k)] *)
Fixpoint dict_get (k : string) (d : dict V) : option V :=
  match d with
  | [] => None
  | (k', v) :: d' => if (k' =? k)%string then Some v else dict_get k d'
  end.

(** [d[k] = v]: an existing key keeps its position, a new key goes last. *)
Fixpoint dict_set (k : string) (v : V) (d : dict V) : dict V :=
  match d with
  | [] => [(k, v)]
  | (k', v') :: d' =>
      if (k' =? k)%string then (k', v) :: d' else (k', v') :: dict_set k v d'
  end.

Definition dict_keys (d : dict V) : list string := map fst d.
End Dict.

(** *** Iteration order of a plain dict

    Modelled from CPython 2.7 (64-bit build, hash randomisation off, as by
    default): the hash of a string and the open-addressing table of a
    [dict], as far as they decide where a key is stored. Iteration visits
    the slots of the table in index order. *)

Definition word : Z := 2 ^ 64.

Definition code (c : ascii) : Z := Z.of_N (N_of_ascii c).

(** [hash(s)] as an unsigned 64-bit number. *)
Definition string_hash (s : string) : Z :=
  match s with
  | EmptyString => 0
  | String c _ =>
      let start := (Z.shiftl (code c) 7) mod word in
      let x := fold_left (fun x c => Z.lxor ((1000003 * x) mod word) (code c))
                         (list_ascii_of_string s) start in
      let x := Z.lxor x (len s) in
      if x =? word - 1 then word - 2 else x
  end.

(** A table of slots, each empty or holding a key with its hash. *)
Definition table : Type := list (option (string * Z)).

Fixpoint set_slot (j : nat) (entry : string * Z) (t : table) : table :=
  match t, j with
  | [], _ => []
  | _ :: t', O => Some entry :: t'
  | slot :: t', S j' => slot :: set_slot j' entry t'
  end.

(** The probe sequence of [lookdict_string]: the slot where [key] is, or
    the empty slot where it goes. *)
Fixpoint probe (fuel : nat) (t : table) (mask : Z) (key : string)
  (i perturb : Z) : nat :=
  let j := Z.to_nat (Z.land i mask) in
  match nth j t None with
  | None => j
  | Some (k, _) =>
      if (k =? key)%string then j
      else match fuel with
           | O => j
           | S fuel' =>
               probe fuel' t mask key ((i * 5 + perturb + 1) mod word)
                     (Z.shiftr perturb 5)
           end
  end.

Definition find_slot (t : table) (key : string) (h : Z) : nat :=
  let mask := Z.of_nat (List.length t) - 1 in
  probe (List.length t + 64) t mask key (Z.land h mask) h.

Definition used (t : table) : Z :=
  Z.of_nat (List.length (filter (fun slot => match slot with
                                             | Some _ => true
                                             | None => false
                                             end) t)).

(** The size [dictresize] picks: the first power of two from 8 on that is
    larger than [minused]. *)
Fixpoint new_size (fuel : nat) (size minused : Z) : Z :=
  match fuel with
  | O => size
  | S fuel' => if size <=? minused then new_size fuel' (size * 2) minused else size
  end.

(** [dictresize]: the entries are stored again, in slot order, in an empty
    table of the new size. *)
Definition resize (t : table) (minused : Z) : table :=
  let size := new_size 64 8 minused in
  fold_left (fun t' slot =>
               match slot with
               | Some (k, h) => set_slot (find_slot t' k h) (k, h) t'
               | None => t'
               end)
            t (repeat None (Z.to_nat size)).

(** [d[key] = ...] on the table: a key that is there keeps its slot; a new
    key takes the slot the probe finds, and the table is resized when two
    thirds of it are in use. *)
Definition table_insert (t : table) (key : string) : table :=
  let h := string_hash key in
  let j := find_slot t key h in
  match nth j t None with
  | Some _ => t
  | None =>
      let t' := set_slot j (key, h) t in
      if used t' * 3 >=? Z.of_nat (List.length t') * 2
      then resize t' ((if used t' >? 50000 then 2 else 4) * used t')
      else t'
  end.

(** The keys of a plain dict in the order of iteration, given the order in
    which they were inserted into the empty dict. *)
Definition dict_iter_order (inserted : list string) : list string :=
  flat_map (fun slot => match slot with
                        | Some (k, _) => [k]
                        | None => []
                        end)
           (fold_left table_insert inserted (repeat None 8)).

(** [d.keys()] of a plain dict. *)
Definition iter_keys {V : Type} (d : dict V) : list string :=
  dict_iter_order (dict_keys d).

(** A projected row, and a provider's native view of a task. *)
Definition Row : Type := dict pyval.

(** ** Task handles and the provider *)

(** Modelled from the spec: the task handle of the provider package, which is
    not part of this file. It exposes [get_field(name, default)] and
    [raw_task_data()]. *)
Record Task : Type := {
  get_field : string -> pyval -> pyval;
  raw_task_data : Row
}.

(** [get_field t k d] honours its contract for an absent field when it hands
    back whatever default it is given. *)
Definition lacks_field (t : Task) (k : string) : Prop :=
  forall d : pyval, get_field t k d = d.

(** Modelled from the spec: a task handle backed by a field dictionary, whose
    accessor is [fields.get(name, default)]. *)
Definition dict_task (fields : Row) : Task :=
  {| get_field := fun k d =>
       match dict_get k fields with
       | Some v => v
       | None => d
       end;
     raw_task_data := fields |}.

(** ** prepare_row *)

Record row_spec : Type := {
  key : string;
  optional : bool;
  default_value : pyval
}.

Definition default_columns : list row_spec :=
  [ {| key := "job-name"; optional := false; default_value := VNone |};
    {| key := "task-id"; optional := true; default_value := VNone |};
    {| key := "last-update"; optional := false; default_value := VNone |} ].

Definition short_columns : list row_spec :=
  default_columns ++
  [ {| key := "status-message"; optional := false; default_value := VNone |} ].

Definition full_columns : list row_spec :=
  default_columns ++
  [ {| key := "job-id"; optional := false; default_value := VNone |};
    {| key := "user-id"; optional := false; default_value := VNone |};
    {| key := "status"; optional := false; default_value := VNone |};
    {| key := "status-detail"; optional := false; default_value := VNone |};
    {| key := "create-time"; optional := false; default_value := VNone |};
    {| key := "end-time"; optional := false; default_value := VStr "NA" |};
    {| key := "internal-id"; optional := false; default_value := VNone |};
    {| key := "logging"; optional := false; default_value := VNone |};
    {| key := "inputs"; optional := false; default_value := VMap [] |};
    {| key := "outputs"; optional := false; default_value := VMap [] |};
    {| key := "envs"; optional := false; default_value := VMap [] |};
    {| key := "labels"; optional := false; default_value := VMap [] |} ].

Definition columns_of (full : bool) : list row_spec :=
  if full then full_columns else short_columns.

(** One iteration of the loop body of [prepare_row]. *)
Definition add_column (task : Task) (row : Row) (col : row_spec) : Row :=
  let value := get_field task (key col) (default_value col) in
  if negb (optional col) || truthy value
  then dict_set (key col) value row
  else row.

(** [row = {}] is a plain dict: the result lists its entries in the order
    in which the loop writes them, and [iter_keys] gives the order in which
    the dict hands them out. *)
Definition prepare_row (task : Task) (full : bool) : Row :=
  let columns := columns_of full in
  fold_left (add_column task) columns [].

(** The selection test of [prepare_row] for one column. *)
Definition selected (task : Task) (col : row_spec) : bool :=
  negb (optional col) || truthy (get_field task (key col) (default_value col)).

(** The entry a selected column contributes. *)
Definition entry (task : Task) (col : row_spec) : string * pyval :=
  (key col, get_field task (key col) (default_value col)).

(** ** Output formatters *)

(** The three concrete formatter classes; each instance carries [_full]. *)
Inductive OutputFormatter : Type :=
  | TextOutput (full : bool)
  | YamlOutput (full : bool)
  | JsonOutput (full : bool).

Definition _full (self : OutputFormatter) : bool :=
  match self with
  | TextOutput full | YamlOutput full | JsonOutput full => full
  end.

(** *** TextOutput *)

Definition _MAX_ERROR_MESSAGE_LENGTH : Z := 30.

(** [len(value)] is defined on strings and mappings only; slicing a mapping
    is a [TypeError]. *)
Definition trim_display_field (value : pyval) (max_length : Z) : result pyval :=
  if negb (truthy value) then Ok (VStr "")
  else
    match value with
    | VStr s =>
        if len s >? max_length
        then Ok (VStr (slice_to s (max_length - 3) ++ "...")%string)
        else Ok value
    | VMap items =>
        if Z.of_nat (List.length items) >? max_length
        then Raise TypeError
        else Ok value
    | _ => Raise TypeError
    end.

Definition format_status (self : OutputFormatter) (status : pyval) : result pyval :=
  if _full self then Ok status
  else trim_display_field status _MAX_ERROR_MESSAGE_LENGTH.

(** Tuple order on [(key, value)] pairs of strings. *)
Definition item_leb (a b : string * string) : bool :=
  match String.compare (fst a) (fst b) with
  | Lt => true
  | Eq => String.leb (snd a) (snd b)
  | Gt => false
  end.

Fixpoint insert_item (x : string * string) (l : list (string * string)) :=
  match l with
  | [] => [x]
  | y :: l' => if item_leb x y then x :: l else y :: insert_item x l'
  end.

(** [sorted(items)] *)
Definition sorted (items : list (string * string)) : list (string * string) :=
  fold_right insert_item [] items.

(** Only a mapping has [iteritems]. *)
Definition format_inputs_outputs (values : pyval) : result pyval :=
  match values with
  | VMap items =>
      Ok (VStr (join ", " (map (fun kv => (fst kv ++ "=" ++ snd kv)%string) (sorted items))))
  | _ => Raise AttributeError
  end.

(** An entry of [column_map]: field name, text label and, for the entries
    of length three, the formatting function. *)
Definition column : Type := string * string * option (pyval -> result pyval).

Definition column_map (self : OutputFormatter) : list column :=
  [ ("job-id", "Job ID", None);
    ("job-name", "Job Name", None);
    ("task-id", "Task", None);
    ("status-message", "Status", Some (format_status self));
    ("status-detail", "Status-details", None);
    ("last-update", "Last Update", None);
    ("create-time", "Created", None);
    ("end-time", "Ended", None);
    ("user-id", "User", None);
    ("internal-id", "Internal ID", None);
    ("logging", "Logging", None);
    ("inputs", "Inputs", Some format_inputs_outputs);
    ("outputs", "Outputs", Some format_inputs_outputs) ].

(** The body of the loop over [column_map]: a field missing from [row] is
    skipped, otherwise its (formatted) value is stored under the label. *)
Definition emit_column (row new_row : Row) (col : column) : result Row :=
  let '(field_name, text_label, format_fn) := col in
  match dict_get field_name row with
  | None => Ok new_row
  | Some v =>
      match format_fn with
      | None => Ok (dict_set text_label v new_row)
      | Some f => v' <- f v ;; Ok (dict_set text_label v' new_row)
      end
  end.

Fixpoint emit_columns (row new_row : Row) (cols : list column) : result Row :=
  match cols with
  | [] => Ok new_row
  | col :: cols' =>
      new_row' <- emit_column row new_row col ;; emit_columns row new_row' cols'
  end.

(** The text label of a [column_map] entry, and what [emit_column] computes
    for it: nothing when the row lacks the field, else the outcome of the
    entry's formatting function (the value itself when it has none). *)
Definition label (col : column) : string := snd (fst col).

Definition cell (row : Row) (col : column) : option (result pyval) :=
  let '(field_name, _, format_fn) := col in
  match dict_get field_name row with
  | None => None
  | Some v => Some (match format_fn with None => Ok v | Some f => f v end)
  end.

(** [prepare_output]: the text formatter relabels and formats, the other two
    inherit the identity of the base class. *)
Definition prepare_output (self : OutputFormatter) (row : Row) : result Row :=
  match self with
  | TextOutput _ => emit_columns row [] (column_map self)
  | YamlOutput _ | JsonOutput _ => Ok row
  end.

(** What reaches standard output: each constructor is one [print] call on the
    text an external renderer makes of a table. *)
Inductive printed : Type :=
  | Tabulate (table : list Row)
  | BlankLine
  | YamlDump (table : list Row)
  | JsonDumps (table : list Row).

Definition print_table (self : OutputFormatter) (table : list Row) : list printed :=
  match self with
  | TextOutput _ => [Tabulate table; BlankLine]
  | YamlOutput _ => [YamlDump table]
  | JsonOutput _ => [JsonDumps table]
  end.

(** *** YamlOutput *)













(** *** JsonOutput *)

Definition serialize (field : pyval) : pyval :=
  match field with
  | VDatetime iso => VStr iso
  | _ => field
  end.

(** ** The provider *)

(** The selection filters handed unchanged to every lookup. *)
Record Query : Type := {
  status_list : list string;
  user_list : list string;
  job_list : option (list string);
  label_list : list (string * string);
  max_age : option Z;
  max_tasks : option Z
}.

(** Modelled from the spec: [lookup_job_tasks] of the provider package. The
    provider is a stateful collaborator; [lookup_job_tasks p q n] is the task
    list it answers to the [n]-th lookup (counted from zero) for query [q]. *)
Record Provider : Type := {
  lookup_job_tasks : Query -> nat -> list Task
}.

(** ** dstat_job_producer *)

(** Modelled on the generator protocol: what the generator does between two
    lookups. [Yield] hands a batch to the consumer, [Sleep secs] is a call
    [time.sleep(secs)] that returned, [Raised e] is an exception that leaves
    the generator, which is then finished. *)
Inductive event : Type :=
  | Yield (formatted_tasks : list Row)
  | Sleep (secs : Z)
  | Raised (e : exn).

(** [time.sleep(secs)]: a negative argument raises ([IOError], invalid
    argument); otherwise the call returns once the time has passed. The wait
    itself and the upper limit of the platform's timer are outside the
    model: what is proved of a sleep that returns is proved for intervals up
    to [sleep_max]. *)
Definition time_sleep (secs : Z) : result unit :=
  if secs <? 0 then Raise IOError else Ok tt.

(** The longest wait, in seconds, that every platform's timer holds (a
    32-bit count of milliseconds). *)
Definition sleep_max : Z := 4294967.

(** POLLING carries the number of lookups already made; DONE is the
    finished generator, whether it returned or raised. *)
Inductive loop_state : Type :=
  | POLLING (cycle : nat)
  | DONE.

Definition is_running (task : Task) : bool :=
  eq_str (get_field task "task-status" VNone) "RUNNING".

Section Producer.
Variable provider : Provider.
Variable query : Query.
Variable full_output : bool.
Variable poll_interval : Z.
Variable raw_format : bool.

Definition format_task (task : Task) : Row :=
  if raw_format then raw_task_data task else prepare_row task full_output.

(** The body of [for task in tasks], on the pair
    [(formatted_tasks, some_job_running)]. *)
Definition visit_task (acc : list Row * bool) (task : Task) : list Row * bool :=
  let '(formatted_tasks, some_job_running) := acc in
  (formatted_tasks ++ [format_task task],
   if is_running task then true else some_job_running).

Definition poll_cycle (tasks : list Task) : list Row * bool :=
  fold_left visit_task tasks ([], false).

(** One turn of the [while] loop up to the test that follows the [yield]:
    look up, format, yield, and decide between going on ([POLLING], through
    [time.sleep]) and [break] ([DONE]). *)
Definition step (s : loop_state) : list event * loop_state :=
  match s with
  | DONE => ([], DONE)
  | POLLING n =>
      let tasks := lookup_job_tasks provider query n in
      let '(formatted_tasks, some_job_running) := poll_cycle tasks in
      if negb (poll_interval =? 0) && some_job_running
      then ([Yield formatted_tasks], POLLING (S n))
      else ([Yield formatted_tasks], DONE)
  end.

(** At most [fuel] turns of the loop from state [s]. After a turn that goes
    on, [time.sleep(poll_interval)] is called: when it returns the loop goes
    round again, when it raises the exception leaves the generator. *)
Fixpoint run (fuel : nat) (s : loop_state) : list event * loop_state :=
  match fuel with
  | O => ([], s)
  | S fuel' =>
      match s with
      | DONE => ([], DONE)
      | POLLING _ =>
          let '(evs, s') := step s in
          match s' with
          | DONE => (evs, DONE)
          | POLLING _ =>
              match time_sleep poll_interval with
              | Ok _ =>
                  let '(evs', s'') := run fuel' s' in
                  (evs ++ Sleep poll_interval :: evs', s'')
              | Raise e => (evs ++ [Raised e], DONE)
              end
          end
      end
  end.

Definition dstat_job_producer (fuel : nat) : list event * loop_state :=
  run fuel (POLLING 0).
End Producer.

(** The batches among the events, in the order they were yielded. *)
Fixpoint batches (evs : list event) : list (list Row) :=
  match evs with
  | [] => []
  | Yield b :: evs' => b :: batches evs'
  | Sleep _ :: evs' => batches evs'
  | Raised _ :: evs' => batches evs'
  end.

(** An event with the contents of its rows erased: what is left is the size
    of each batch and the sleeps between batches. *)
Definition outline (e : event) : event :=
  match e with
  | Yield formatted_tasks => Yield (map (fun _ => []) formatted_tasks)
  | Sleep secs => Sleep secs
  | Raised e => Raised e
  end.

(** ** The consumer loop of main *)

(** [for row in tasks]: a fresh one-row table is built and printed for each
    row; an exception from [prepare_output] ends the output there. *)
Fixpoint print_rows (output_formatter : OutputFormatter) (tasks : list Row)
  : list printed * option exn :=
  match tasks with
  | [] => ([], None)
  | row :: tasks' =>
      let table := [] in
      match prepare_output output_formatter row with
      | Raise e => ([], Some e)
      | Ok row' =>
          let table := table ++ [row'] in
          let out := print_table output_formatter table in
          let '(out', err) := print_rows output_formatter tasks' in
          (out ++ out', err)
      end
  end.

(** [for tasks in job_producer] *)
Fixpoint print_batches (output_formatter : OutputFormatter) (job_producer : list (list Row))
  : list printed * option exn :=
  match job_producer with
  | [] => ([], None)
  | tasks :: rest =>
      match print_rows output_formatter tasks with
      | (out, Some e) => (out, Some e)
      | (out, None) =>
          let '(out', err) := print_batches output_formatter rest in
          (out ++ out', err)
      end
  end.

(** A rendered block is the text of one table or document. *)
Definition is_block (p : printed) : bool :=
  match p with
  | BlankLine => false
  | _ => true
  end.

Definition blocks (out : list printed) : list printed := filter is_block out.

(** The field a [column_map] entry reads, whether a row has it, and the
    entries the loop over the columns stores, in column order. *)
Definition field_of (col : column) : string := fst (fst col).

Definition has_field (row : Row) (col : column) : bool :=
  match dict_get (field_of col) row with
  | Some _ => true
  | None => false
  end.

Definition cells (row : Row) (cols : list column) : Row :=
  flat_map (fun col =>
              match cell row col with
              | Some (Ok v) => [(label col, v)]
              | _ => []
              end) cols.

(** The exception, if any, that the formatting function of a column raises
    on the row's field. *)
Definition raised (row : Row) (col : column) : option exn :=
  match cell row col with
  | Some (Raise e) => Some e
  | _ => None
  end.

(** The first exception among the columns, in column order. *)
Fixpoint first_raised (row : Row) (cols : list column) : option exn :=
  match cols with
  | [] => None
  | col :: cols' =>
      match raised row col with
      | Some e => Some e
      | None => first_raised row cols'
      end
  end.

(** The sleeps among the events, in order. *)
Fixpoint sleeps (evs : list event) : list Z :=
  match evs with
  | [] => []
  | Yield _ :: evs' => sleeps evs'
  | Sleep secs :: evs' => secs :: sleeps evs'
  | Raised _ :: evs' => sleeps evs'
  end.

(** The exception, if any, that left the generator. *)
Fixpoint raised_by (evs : list event) : option exn :=
  match evs with
  | [] => None
  | Raised e :: _ => Some e
  | _ :: evs' => raised_by evs'
  end.

(** ** main and parse_arguments *)

(** The parsed command line, as [argparse] hands it over: one attribute per
    flag. [label] holds the KEY=VALUE strings as typed. *)
Module Namespace.
Record t : Type := {
  project : option string;
  jobs : option (list string);
  users : list string;
  status : list string;
  age : option string;
  label : list string;
  poll_interval : Z;
  wait : bool;
  limit : option Z;
  full : bool;
  format : option string;
  provider : string
}.
End Namespace.

Definition provider_required_args : list (string * list string) :=
  [ ("google", ["project"]); ("test-fails", []); ("local", []) ].

(** How the check of the required arguments can end badly: the provider is
    no key of [provider_required_args], the namespace has no such attribute,
    or [parser.error] reports the message and exits. *)
Inductive arg_error : Type :=
  | KeyError (provider : string)
  | NoSuchAttribute (arg : string)
  | ParserError (message : string).

Definition truthy_opt_str (x : option string) : bool :=
  match x with
  | Some s => negb (s =? "")%string
  | None => false
  end.

Definition truthy_list {A : Type} (l : list A) : bool :=
  match l with
  | [] => false
  | _ :: _ => true
  end.

(** The truth value of [args.__getattribute__(arg)]. *)
Definition attribute_truthy (args : Namespace.t) (arg : string) : option bool :=
  if (arg =? "project")%string then Some (truthy_opt_str (Namespace.project args))
  else if (arg =? "jobs")%string then
    Some (match Namespace.jobs args with Some l => truthy_list l | None => false end)
  else if (arg =? "users")%string then Some (truthy_list (Namespace.users args))
  else if (arg =? "status")%string then Some (truthy_list (Namespace.status args))
  else if (arg =? "age")%string then Some (truthy_opt_str (Namespace.age args))
  else if (arg =? "label")%string then Some (truthy_list (Namespace.label args))
  else if (arg =? "poll_interval")%string then
    Some (negb (Namespace.poll_interval args =? 0))
  else if (arg =? "wait")%string then Some (Namespace.wait args)
  else if (arg =? "limit")%string then
    Some (match Namespace.limit args with Some n => negb (n =? 0) | None => false end)
  else if (arg =? "full")%string then Some (Namespace.full args)
  else if (arg =? "format")%string then Some (truthy_opt_str (Namespace.format args))
  else if (arg =? "provider")%string then
    Some (negb (Namespace.provider args =? "")%string)
  else None.

(** The loop [for arg in provider_required_args[args.provider]] at the end
    of [parse_arguments]. *)
Fixpoint check_required (args : Namespace.t) (required : list string)
  : option arg_error :=
  match required with
  | [] => None
  | arg :: required' =>
      match attribute_truthy args arg with
      | None => Some (NoSuchAttribute arg)
      | Some false => Some (ParserError ("argument --" ++ arg ++ " is required")%string)
      | Some true => check_required args required'
      end
  end.

Definition check_provider_args (args : Namespace.t) : option arg_error :=
  match dict_get (Namespace.provider args) provider_required_args with
  | None => Some (KeyError (Namespace.provider args))
  | Some required => check_required args required
  end.

(** The formatter [main] sets up from [--format] and [--full]. *)
Definition select_formatter (args : Namespace.t) : OutputFormatter :=
  let format := Namespace.format args in
  let full := Namespace.full args in
  let format_is fmt :=
    match format with Some f => (f =? fmt)%string | None => false end in
  if format_is "json" then JsonOutput full
  else if format_is "text" then TextOutput full
  else if format_is "yaml" then YamlOutput full
  else if format_is "provider-json" then JsonOutput full
  else if full then YamlOutput full else TextOutput full.

Section Main.
(** The collaborators of [main] from the library and provider packages. *)
Variable age_to_create_time : option string -> option Z.
Variable get_provider : Namespace.t -> Provider.
Variable get_os_user : string.
Variable parse_pair_args : list string -> list (string * string).

(** The filters [main] hands to the producer. *)
Definition main_query (args : Namespace.t) : Query :=
  let create_time := age_to_create_time (Namespace.age args) in
  let user_list :=
    if truthy_list (Namespace.users args)
    then Namespace.users args else [get_os_user] in
  let labels := parse_pair_args (Namespace.label args) in
  {| status_list := Namespace.status args;
     user_list := user_list;
     job_list := Namespace.jobs args;
     label_list := labels;
     max_age := create_time;
     max_tasks := Namespace.limit args |}.

(** [main] after [parse_arguments]: what it prints, and the exception that
    ended it if any, when the producer is run for at most [fuel] cycles. An
    exception of [prepare_output] ends [main] while a batch is printed; an
    exception that leaves the producer ends it once the batches yielded
    before are printed. *)
Definition main (args : Namespace.t) (fuel : nat) : list printed * option exn :=
  let output_formatter := select_formatter args in
  let provider := get_provider args in
  let poll_interval :=
    if Namespace.wait args then Namespace.poll_interval args else 0 in
  let raw_format :=
    match Namespace.format args with
    | Some f => (f =? "provider-json")%string
    | None => false
    end in
  let job_producer :=
    dstat_job_producer provider (main_query args) (Namespace.full args)
                       poll_interval raw_format fuel in
  match print_batches output_formatter (batches (fst job_producer)) with
  | (out, Some e) => (out, Some e)
  | (out, None) => (out, raised_by (fst job_producer))
  end.
End Main.

(** * Properties *)

(** ** Dictionaries *)

Section DictFacts.
Context {V : Type}.
Implicit Types (d : dict V) (k : string) (v : V).

Lemma dict_get_set k k' v d :
  dict_get k (dict_set k' v d) = if (k' =? k)%string then Some v else dict_get k d.
Proof.
  induction d as [|[k0 v0] d IH]; simpl.
  - reflexivity.
  - destruct (k0 =? k')%string eqn:E0; simpl.
    + apply String.eqb_eq in E0; subst k0.
      destruct (k' =? k)%string; reflexivity.
    + rewrite IH. destruct (k0 =? k)%string eqn:E1; [|reflexivity].
      apply String.eqb_eq in E1; subst k0. now rewrite String.eqb_sym, E0.
Qed.

Lemma dict_get_app k d d' :
  dict_get k (d ++ d') =
  match dict_get k d with Some v => Some v | None => dict_get k d' end.
Proof.
  induction d as [|[k0 v0] d IH]; simpl; [reflexivity|].
  destruct (k0 =? k)%string; auto.
Qed.

Lemma dict_set_fresh k v d :
  dict_get k d = None -> dict_set k v d = d ++ [(k, v)].
Proof.
  induction d as [|[k0 v0] d IH]; simpl; [reflexivity|].
  rewrite (String.eqb_sym k0 k).
  destruct (k =? k0)%string; [discriminate|].
  intros H. now rewrite IH.
Qed.

Lemma dict_get_None_keys k d :
  dict_get k d = None <-> ~ In k (dict_keys d).
Proof.
  unfold dict_keys. induction d as [|[k0 v0] d IH]; simpl.
  - tauto.
  - destruct (k0 =? k)%string eqn:E.
    + apply String.eqb_eq in E. split; [discriminate | tauto].
    + apply String.eqb_neq in E. tauto.
Qed.

End DictFacts.

(** ** prepare_row: the row in closed form *)

Lemma fold_add_column task cols : forall acc,
  NoDup (map key cols) ->
  (forall c, In c cols -> dict_get (key c) acc = None) ->
  fold_left (add_column task) cols acc =
  acc ++ map (entry task) (filter (selected task) cols).
Proof.
  induction cols as [|c cols IH]; intros acc Hnd Hfresh; simpl.
  - now rewrite app_nil_r.
  - inversion Hnd as [|? ? Hnotin Hnd']; subst.
    unfold add_column at 2. fold (selected task c).
    destruct (selected task c) eqn:Hsel.
    + rewrite dict_set_fresh by (apply Hfresh; now left).
      rewrite IH; trivial.
      * now rewrite <- app_assoc.
      * intros c' Hc'. rewrite dict_get_app, Hfresh by now right.
        simpl. destruct (key c =? key c')%string eqn:E; [|reflexivity].
        apply String.eqb_eq in E. exfalso. apply Hnotin. rewrite E.
        now apply in_map.
    + apply IH; trivial. intros c' Hc'. apply Hfresh. now right.
Qed.

Lemma columns_of_NoDup full : NoDup (map key (columns_of full)).
Proof.
  destruct full; cbn;
    repeat (constructor; [cbn; intuition discriminate|]); constructor.
Qed.

Lemma prepare_row_closed task full :
  prepare_row task full =
  map (entry task) (filter (selected task) (columns_of full)).
Proof.
  unfold prepare_row. rewrite fold_add_column.
  - reflexivity.
  - apply columns_of_NoDup.
  - reflexivity.
Qed.

Lemma dict_get_selected task cols col :
  NoDup (map key cols) -> In col cols ->
  dict_get (key col) (map (entry task) (filter (selected task) cols)) =
  if selected task col
  then Some (get_field task (key col) (default_value col))
  else None.
Proof.
  induction cols as [|c cols IH]; intros Hnd Hin; [contradiction|].
  inversion Hnd as [|? ? Hnotin Hnd']; subst. simpl.
  destruct Hin as [->|Hin].
  - destruct (selected task col) eqn:Hsel; simpl.
    + now rewrite String.eqb_refl.
    + apply dict_get_None_keys. unfold dict_keys. rewrite map_map. simpl.
      intros Hk. apply Hnotin. apply in_map_iff in Hk as (c' & <- & Hc').
      apply in_map. apply filter_In in Hc'. tauto.
  - destruct (selected task c); simpl; [|now apply IH].
    destruct (key c =? key col)%string eqn:E; [|now apply IH].
    apply String.eqb_eq in E. exfalso. apply Hnotin. rewrite E. now apply in_map.
Qed.

Lemma prepare_row_keys task full :
  dict_keys (prepare_row task full) =
  map key (filter (selected task) (columns_of full)).
Proof.
  rewrite prepare_row_closed. unfold dict_keys. now rewrite map_map.
Qed.

(** ** The field projector *)

(** C2. For every task and verbosity flag, and every column [col] of the
    active column set, with [value] the result of
    [task.get_field(key, default)]: an optional column is in the row exactly
    when [value] is truthy, a non-optional column is always in the row, the
    stored value is [value], and it is the declared default when the task
    lacks the field. [prepare_row] is a total function: no field absence
    makes it fail. *)
Theorem prepare_row_selection (task : Task) (full : bool) (col : row_spec)
  (Hcol : In col (columns_of full)) :
  let value := get_field task (key col) (default_value col) in
  let row := prepare_row task full in
  (optional col = true ->
     dict_get (key col) row = if truthy value then Some value else None) /\
  (optional col = false -> dict_get (key col) row = Some value) /\
  (optional col = false -> lacks_field task (key col) ->
     dict_get (key col) row = Some (default_value col)).
Proof.
  intros value row. subst row.
  rewrite prepare_row_closed.
  rewrite dict_get_selected by (apply columns_of_NoDup || assumption).
  unfold selected. fold value.
  repeat split.
  - intros ->. reflexivity.
  - intros ->. reflexivity.
  - intros -> Hlacks. simpl. f_equal. apply Hlacks.
Qed.

Lemma prepare_row_selection_witness :
  let task := dict_task [("task-id", VStr ""); ("job-name", VStr "align")] in
  let col := {| key := "end-time"; optional := false; default_value := VStr "NA" |} in
  In col (columns_of true) /\
  dict_get "end-time" (prepare_row task true) = Some (VStr "NA").
Proof.
  intros task col.
  assert (Hcol : In col (columns_of true)) by (cbn; tauto).
  split; [exact Hcol|].
  destruct (prepare_row_selection task true col Hcol) as (_ & _ & Hdefault).
  apply Hdefault; [reflexivity|].
  intros d. reflexivity.
Defined.

Lemma prepare_row_key_cases (task : Task) (full : bool) :
  dict_keys (prepare_row task full) =
  "job-name" ::
  (if truthy (get_field task "task-id" VNone) then ["task-id"] else []) ++
  (if full
   then ["last-update"; "job-id"; "user-id"; "status"; "status-detail";
         "create-time"; "end-time"; "internal-id"; "logging"; "inputs";
         "outputs"; "envs"; "labels"]
   else ["last-update"; "status-message"]).
Proof.
  rewrite prepare_row_keys.
  destruct full; cbn; now destruct (truthy (get_field task "task-id" VNone)).
Qed.

(** C5, as the code has it. [prepare_row] writes the selected keys into a
    plain dict in the order in which the active column set declares them,
    and the dict it returns depends on the task through [get_field] alone,
    not on the task's native field order. The dict is not an ordered
    mapping: iterating it gives the same keys, each once, in the order of
    the interpreter's hash table, which depends only on which keys the row
    has. For the short column set that order is last-update,
    status-message, job-name, with task-id before them when the row has
    it. *)
Theorem prepare_row_key_order (task task' : Task) (full : bool)
  (Hsame : forall k d, get_field task' k d = get_field task k d) :
  let row := prepare_row task full in
  dict_keys row = map key (filter (selected task) (columns_of full)) /\
  prepare_row task' full = row /\
  (forall k, In k (iter_keys row) <-> In k (dict_keys row)) /\
  NoDup (iter_keys row) /\
  (forall other : Task,
     truthy (get_field other "task-id" VNone) =
       truthy (get_field task "task-id" VNone) ->
     iter_keys (prepare_row other full) = iter_keys row) /\
  (full = false ->
   iter_keys row =
     (if truthy (get_field task "task-id" VNone) then ["task-id"] else []) ++
     ["last-update"; "status-message"; "job-name"]).
Proof.
  intros row. subst row. split; [apply prepare_row_keys|]. split.
  { rewrite !prepare_row_closed.
    assert (Hsel : forall c, selected task' c = selected task c)
      by (intros c; unfold selected; now rewrite Hsame).
    rewrite (filter_ext _ _ Hsel).
    apply map_ext. intros c. unfold entry. now rewrite Hsame. }
  unfold iter_keys. split; [|split; [|split]].
  - intros k. rewrite prepare_row_key_cases.
    destruct full; destruct (truthy (get_field task "task-id" VNone));
      vm_compute; intuition.
  - rewrite prepare_row_key_cases.
    destruct full; destruct (truthy (get_field task "task-id" VNone));
      vm_compute;
      repeat (constructor; [cbn; intuition discriminate|]); constructor.
  - intros other Hother. rewrite !prepare_row_key_cases. now rewrite Hother.
  - intros ->. rewrite prepare_row_key_cases.
    now destruct (truthy (get_field task "task-id" VNone)).
Qed.

Lemma prepare_row_key_order_witness :
  let task := dict_task [("last-update", VStr "today"); ("task-id", VStr "2");
                         ("job-name", VStr "align")] in
  let task' := dict_task [("job-name", VStr "align"); ("task-id", VStr "2");
                          ("last-update", VStr "today")] in
  (forall k d, get_field task' k d = get_field task k d) /\
  dict_keys (prepare_row task false) =
    ["job-name"; "task-id"; "last-update"; "status-message"] /\
  prepare_row task' false = prepare_row task false /\
  iter_keys (prepare_row task false) =
    ["task-id"; "last-update"; "status-message"; "job-name"].
Proof.
  intros task task'.
  assert (Hsame : forall k d, get_field task' k d = get_field task k d).
  { intros k d.
    destruct (string_dec k "job-name") as [->|H1]; [reflexivity|].
    destruct (string_dec k "task-id") as [->|H2]; [reflexivity|].
    destruct (string_dec k "last-update") as [->|H3]; [reflexivity|].
    cbv [task task' dict_task get_field dict_get].
    assert (E1 : ("job-name" =? k)%string = false)
      by (apply String.eqb_neq; congruence).
    assert (E2 : ("task-id" =? k)%string = false)
      by (apply String.eqb_neq; congruence).
    assert (E3 : ("last-update" =? k)%string = false)
      by (apply String.eqb_neq; congruence).
    now rewrite E1, E2, E3. }
  split; [exact Hsame|].
  pose proof (prepare_row_key_order task task' false Hsame) as H.
  cbv zeta in H. destruct H as (Hkeys & Hrow & _ & _ & _ & Hiter).
  split; [rewrite Hkeys; reflexivity|]. split; [exact Hrow|].
  rewrite (Hiter eq_refl). reflexivity.
Defined.

(** C5 as stated fails: the row is a plain dict, and for a task with all
    four short fields its keys come out as task-id, last-update,
    status-message, job-name, not in the order job-name, task-id,
    last-update, status-message in which the column set declares and
    inserts them. *)
Lemma prepare_row_key_order_counterexample :
  let task := dict_task [("job-name", VStr "align"); ("task-id", VStr "2");
                         ("last-update", VStr "2024-01-01T00:00:00Z");
                         ("status-message", VStr "RUNNING")] in
  map key (filter (selected task) (columns_of false)) =
    ["job-name"; "task-id"; "last-update"; "status-message"] /\
  iter_keys (prepare_row task false) =
    ["task-id"; "last-update"; "status-message"; "job-name"] /\
  ~ (forall (task : Task) (full : bool),
       iter_keys (prepare_row task full) =
       map key (filter (selected task) (columns_of full))).
Proof.
  intros task. split; [reflexivity|]. split; [vm_compute; reflexivity|].
  intros Hclaim. specialize (Hclaim task false).
  vm_compute in Hclaim. discriminate Hclaim.
Qed.

(** C9. With [full] set the key set of the row is the fourteen non-optional
    keys of the full column set, with [full] unset it is job-name,
    last-update and status-message; in both cases task-id is added exactly
    when the task's task-id is truthy. No key occurs twice. *)
Theorem prepare_row_key_set (task : Task) (full : bool) (k : string) :
  (In k (dict_keys (prepare_row task full)) <->
   In k (if full
         then ["job-name"; "last-update"; "job-id"; "user-id"; "status";
               "status-detail"; "create-time"; "end-time"; "internal-id";
               "logging"; "inputs"; "outputs"; "envs"; "labels"]
         else ["job-name"; "last-update"; "status-message"]) \/
   (k = "task-id" /\ truthy (get_field task "task-id" VNone) = true)) /\
  NoDup (dict_keys (prepare_row task full)).
Proof.
  rewrite prepare_row_keys. split.
  - destruct full; cbn;
      destruct (truthy (get_field task "task-id" VNone)); cbn;
      intuition (subst; try discriminate; auto 20).
  - assert (Hsub : forall cols : list row_spec,
               NoDup (map key cols) ->
               NoDup (map key (filter (selected task) cols))).
    { induction cols as [|c cols IH]; simpl; intros Hnd; [constructor|].
      inversion Hnd as [|? ? Hnotin Hnd']; subst.
      destruct (selected task c); simpl; [|auto].
      constructor; [|auto].
      intros Hin. apply Hnotin. apply in_map_iff in Hin as (c' & <- & Hc').
      apply in_map. apply filter_In in Hc'. tauto. }
    apply Hsub, columns_of_NoDup.
Qed.

(** ** Strings *)

Lemma length_app (s1 s2 : string) :
  String.length (s1 ++ s2) = (String.length s1 + String.length s2)%nat.
Proof. induction s1 as [|c s1 IH]; simpl; congruence. Qed.

Lemma substring_take (n : nat) : forall s : string,
  (n <= String.length s)%nat ->
  exists tail, s = (substring 0 n s ++ tail)%string /\
               String.length (substring 0 n s) = n.
Proof.
  induction n as [|n IH]; intros s Hn.
  - exists s. now destruct s.
  - destruct s as [|c s]; simpl in *; [lia|].
    destruct (IH s) as (tail & Hs & Hlen); [lia|].
    exists tail. split; [now rewrite <- Hs | now rewrite Hlen].
Qed.




Lemma truthy_str (s : string) : truthy (VStr s) = negb (len s =? 0).
Proof. destruct s; reflexivity. Qed.

Lemma slice_to_head (s : string) (stop : Z) :
  0 <= stop <= len s ->
  exists tail, s = (slice_to s stop ++ tail)%string /\ len (slice_to s stop) = stop.
Proof.
  intros Hstop. unfold slice_to, slice_stop, len in *.
  destruct (Z.ltb_spec stop 0) as [?|_]; [lia|].
  rewrite Z.min_l by lia.
  destruct (substring_take (Z.to_nat stop) s) as (tail & Hs & Hlen); [lia|].
  exists tail. split; [exact Hs | rewrite Hlen; lia].
Qed.

(** ** The text formatter *)

Lemma trim_falsy (value : pyval) (max_length : Z) :
  truthy value = false -> trim_display_field value max_length = Ok (VStr "").
Proof. intros Hfalsy. unfold trim_display_field. now rewrite Hfalsy. Qed.

Lemma trim_short (s : string) (max_length : Z) :
  len s <= max_length -> trim_display_field (VStr s) max_length = Ok (VStr s).
Proof.
  intros Hle. unfold trim_display_field. rewrite truthy_str.
  destruct (Z.eqb_spec (len s) 0) as [H0|H0]; simpl.
  - destruct s; [reflexivity | discriminate].
  - rewrite Z.gtb_ltb. destruct (Z.ltb_spec max_length (len s)); [lia|reflexivity].
Qed.

Lemma trim_long (s : string) (max_length : Z) :
  3 <= max_length < len s ->
  trim_display_field (VStr s) max_length =
    Ok (VStr (slice_to s (max_length - 3) ++ "...")) /\
  exists tail,
    s = (slice_to s (max_length - 3) ++ tail)%string /\
    len (slice_to s (max_length - 3)) = max_length - 3.
Proof.
  intros Hgt. split.
  - unfold trim_display_field. rewrite truthy_str.
    destruct (Z.eqb_spec (len s) 0) as [H0|H0]; [lia|]. simpl.
    rewrite Z.gtb_ltb. destruct (Z.ltb_spec max_length (len s)); [reflexivity|lia].
  - apply slice_to_head. lia.
Qed.

(** C10. For [max_length >= 4]: a falsy value is displayed as the empty
    string; a string no longer than [max_length] is returned unchanged; a
    longer string [s] is cut to its first [max_length - 3] characters
    followed by three dots, [max_length] characters in all; so the result
    is never longer than [max (len s) max_length]. *)
Theorem trim_display_field_spec (s : string) (max_length : Z)
  (Hmax : 4 <= max_length) :
  (forall value, truthy value = false ->
     trim_display_field value max_length = Ok (VStr "")) /\
  (len s <= max_length -> trim_display_field (VStr s) max_length = Ok (VStr s)) /\
  (max_length < len s ->
     exists head tail,
       s = (head ++ tail)%string /\ len head = max_length - 3 /\
       trim_display_field (VStr s) max_length = Ok (VStr (head ++ "...")) /\
       len (head ++ "...") = max_length) /\
  (exists r, trim_display_field (VStr s) max_length = Ok (VStr r) /\
             len r <= Z.max (len s) max_length).
Proof.
  assert (Hlong : max_length < len s ->
     exists head tail,
       s = (head ++ tail)%string /\ len head = max_length - 3 /\
       trim_display_field (VStr s) max_length = Ok (VStr (head ++ "...")) /\
       len (head ++ "...") = max_length).
  { intros Hgt.
    destruct (trim_long s max_length) as (Heq & tail & Hs & Hlen); [lia|].
    exists (slice_to s (max_length - 3)), tail. repeat split; trivial.
    unfold len in *. rewrite length_app. simpl. lia. }
  repeat split; trivial.
  - intros value. apply trim_falsy.
  - apply trim_short.
  - destruct (Z_le_gt_dec (len s) max_length) as [Hle|Hgt].
    + exists s. split; [now apply trim_short | lia].
    + destruct Hlong as (head & tail & _ & _ & Heq & Hlen); [lia|].
      exists (head ++ "...")%string. split; [exact Heq | lia].
Qed.

Lemma trim_display_field_spec_witness :
  let s := "0123456789012345678901234567890123456789" in
  4 <= 30 /\ 30 < len s /\
  (exists head tail,
     s = (head ++ tail)%string /\ len head = 30 - 3 /\
     trim_display_field (VStr s) 30 = Ok (VStr (head ++ "...")) /\
     len (head ++ "...") = 30) /\
  trim_display_field (VStr "RUNNING") 30 = Ok (VStr "RUNNING").
Proof.
  intros s.
  assert (Hmax : 4 <= 30) by lia.
  assert (Hlen : 30 < len s) by reflexivity.
  split; [exact Hmax|]. split; [exact Hlen|]. split.
  - destruct (trim_display_field_spec s 30 Hmax) as (_ & _ & Hlong & _).
    exact (Hlong Hlen).
  - destruct (trim_display_field_spec "RUNNING" 30 Hmax) as (_ & Hshort & _).
    apply Hshort. vm_compute. discriminate.
Defined.

(** ** The YAML formatter *)





(** ** prepare_output of the text formatter *)

Lemma emit_column_cell (row new_row : Row) (col : column) :
  emit_column row new_row col =
  match cell row col with
  | None => Ok new_row
  | Some (Ok v) => Ok (dict_set (label col) v new_row)
  | Some (Raise e) => Raise e
  end.
Proof.
  destruct col as [[field_name text_label] [f|]]; unfold emit_column, cell, label; simpl;
    destruct (dict_get field_name row) as [v|]; reflexivity.
Qed.

Lemma find_label_fresh (L : string) (cols : list column) :
  ~ In L (map label cols) ->
  find (fun col => (label col =? L)%string) cols = None.
Proof.
  induction cols as [|c cols IH]; simpl; [reflexivity|]. intros Hout.
  destruct (String.eqb_spec (label c) L) as [E|E]; [tauto|].
  apply IH. tauto.
Qed.

(** When no formatting function raises on the fields the row has, the loop
    over the columns completes, and each label holds the cell of its column
    (or what [new_row] held before, when the row lacks the field). *)
Lemma emit_columns_ok (row : Row) (cols : list column) : forall new_row : Row,
  NoDup (map label cols) ->
  (forall col e, In col cols -> cell row col <> Some (Raise e)) ->
  exists out : Row,
    emit_columns row new_row cols = Ok out /\
    forall L,
      dict_get L out =
      match find (fun col => (label col =? L)%string) cols with
      | Some col =>
          match cell row col with
          | Some (Ok v) => Some v
          | _ => dict_get L new_row
          end
      | None => dict_get L new_row
      end.
Proof.
  induction cols as [|c cols IH]; intros new_row Hnd Hok; simpl.
  - now exists new_row.
  - inversion Hnd as [|? ? Hfresh Hnd']; subst.
    rewrite emit_column_cell.
    assert (Hok' : forall col e, In col cols -> cell row col <> Some (Raise e))
      by (intros col e Hin; apply Hok; now right).
    destruct (cell row c) as [[v|e]|] eqn:Hcell.
    + destruct (IH (dict_set (label c) v new_row) Hnd' Hok') as (out & Hrun & Hget).
      exists out. split; [exact Hrun|]. intros L. rewrite Hget, dict_get_set.
      destruct (String.eqb_spec (label c) L) as [E|E].
      * subst L. rewrite find_label_fresh by assumption. now rewrite Hcell.
      * reflexivity.
    + exfalso. apply (Hok c e); [now left | exact Hcell].
    + destruct (IH new_row Hnd' Hok') as (out & Hrun & Hget).
      exists out. split; [exact Hrun|]. intros L. rewrite Hget.
      destruct (String.eqb_spec (label c) L) as [E|E].
      * subst L. rewrite find_label_fresh by assumption. now rewrite Hcell.
      * reflexivity.
Qed.

Lemma column_map_NoDup (self : OutputFormatter) : NoDup (map label (column_map self)).
Proof.
  cbn. repeat (constructor; [cbn; intuition discriminate|]). constructor.
Qed.

(** ** The poll loop *)


Lemma is_running_spec (task : Task) :
  is_running task = true <-> get_field task "task-status" VNone = VStr "RUNNING".
Proof.
  unfold is_running, eq_str.
  destruct (get_field task "task-status" VNone) as [| | |s| |]; try (split; discriminate).
  rewrite String.eqb_eq. split; congruence.
Qed.

Lemma time_sleep_returns (secs : Z) : 0 <= secs -> time_sleep secs = Ok tt.
Proof.
  intros H. unfold time_sleep. destruct (Z.ltb_spec secs 0); [lia | reflexivity].
Qed.


Section ProducerFacts.
Variable provider : Provider.
Variable query : Query.
Variable full_output : bool.
Variable poll_interval : Z.
Variable raw_format : bool.

Lemma fold_visit_task (tasks : list Task) : forall formatted_tasks some_job_running,
  fold_left (visit_task full_output raw_format) tasks
            (formatted_tasks, some_job_running) =
  (formatted_tasks ++ map (format_task full_output raw_format) tasks,
   some_job_running || existsb is_running tasks).
Proof.
  induction tasks as [|t tasks IH]; intros acc b; simpl.
  - now rewrite app_nil_r, orb_false_r.
  - rewrite IH, <- app_assoc. simpl. f_equal.
    destruct (is_running t), b; reflexivity.
Qed.

Lemma poll_cycle_closed (tasks : list Task) :
  poll_cycle full_output raw_format tasks =
  (map (format_task full_output raw_format) tasks, existsb is_running tasks).
Proof. unfold poll_cycle. now rewrite fold_visit_task. Qed.

Lemma step_closed (n : nat) :
  step provider query full_output poll_interval raw_format (POLLING n) =
  let tasks := lookup_job_tasks provider query n in
  ([Yield (map (format_task full_output raw_format) tasks)],
   if negb (poll_interval =? 0) && existsb is_running tasks
   then POLLING (S n) else DONE).
Proof.
  unfold step. rewrite poll_cycle_closed. cbv zeta.
  now destruct (negb (poll_interval =? 0) && _).
Qed.

Lemma run_DONE (fuel : nat) :
  run provider query full_output poll_interval raw_format fuel DONE = ([], DONE).
Proof. now destruct fuel. Qed.

(** One turn of [run], by cases on the test after the [yield] and on the
    outcome of [time.sleep]. *)
Lemma run_S (fuel n : nat) :
  run provider query full_output poll_interval raw_format (S fuel) (POLLING n) =
  let batch := map (format_task full_output raw_format)
                   (lookup_job_tasks provider query n) in
  let rest := run provider query full_output poll_interval raw_format fuel
                  (POLLING (S n)) in
  if negb (poll_interval =? 0) &&
     existsb is_running (lookup_job_tasks provider query n)
  then match time_sleep poll_interval with
       | Ok _ => (Yield batch :: Sleep poll_interval :: fst rest, snd rest)
       | Raise e => ([Yield batch; Raised e], DONE)
       end
  else ([Yield batch], DONE).
Proof.
  cbn [run]. rewrite step_closed. cbv zeta.
  destruct (negb (poll_interval =? 0) && _); [|reflexivity].
  destruct (time_sleep poll_interval); [|reflexivity].
  now destruct (run _ _ _ _ _ fuel (POLLING (S n))).
Qed.


End ProducerFacts.




(** C6, as the code has it. A provider that answers the first lookup with
    one task whose task-status is RUNNING and the second with one task whose
    task-status is SUCCESS, polled with a positive interval that
    [time.sleep] accepts: the producer yields the first batch, sleeps,
    yields the second batch and is done. Two batches, no more, for any fuel
    of two cycles or more. *)
Theorem poll_continuation (provider : Provider) (query : Query)
  (full_output : bool) (poll_interval : Z) (raw_format : bool)
  (t1 t2 : Task) (fuel : nat)
  (Hpoll : 0 < poll_interval <= sleep_max)
  (Hfirst : lookup_job_tasks provider query 0 = [t1])
  (Hsecond : lookup_job_tasks provider query 1 = [t2])
  (Hrunning : get_field t1 "task-status" VNone = VStr "RUNNING")
  (Hsuccess : get_field t2 "task-status" VNone = VStr "SUCCESS") :
  let produced :=
    dstat_job_producer provider query full_output poll_interval raw_format
                       (S (S fuel)) in
  produced =
    ([Yield [format_task full_output raw_format t1];
      Sleep poll_interval;
      Yield [format_task full_output raw_format t2]], DONE) /\
  length (batches (fst produced)) = 2%nat.
Proof.
  intros produced. subst produced. unfold dstat_job_producer.
  assert (Hnz : negb (poll_interval =? 0) = true)
    by (apply negb_true_iff, Z.eqb_neq; lia).
  assert (Hsleep : time_sleep poll_interval = Ok tt)
    by (apply time_sleep_returns; lia).
  assert (H1 : is_running t1 = true) by now apply is_running_spec.
  assert (H2 : is_running t2 = false) by (unfold is_running; now rewrite Hsuccess).
  rewrite run_S, Hfirst. cbv zeta. cbn [existsb map].
  rewrite Hnz, H1, Hsleep. cbn [andb orb fst snd].
  rewrite run_S, Hsecond. cbv zeta. cbn [existsb map].
  rewrite Hnz, H2. cbn [andb orb fst snd].
  split; reflexivity.
Qed.

Lemma poll_continuation_witness :
  let t1 := dict_task [("job-id", VStr "align--alice--17"); ("task-status", VStr "RUNNING")] in
  let t2 := dict_task [("job-id", VStr "align--alice--17"); ("task-status", VStr "SUCCESS")] in
  let provider :=
    {| lookup_job_tasks := fun _ n => match n with O => [t1] | _ => [t2] end |} in
  let query := {| status_list := ["*"]; user_list := ["alice"];
                  job_list := Some ["align--alice--17"]; label_list := [];
                  max_age := None; max_tasks := None |} in
  0 < 10 <= sleep_max /\
  batches (fst (dstat_job_producer provider query false 10 false 5)) =
    [[prepare_row t1 false]; [prepare_row t2 false]] /\
  snd (dstat_job_producer provider query false 10 false 5) = DONE.
Proof.
  intros t1 t2 provider query.
  assert (Hpoll : 0 < 10 <= sleep_max) by (unfold sleep_max; lia).
  split; [exact Hpoll|].
  destruct (poll_continuation provider query false 10 false t1 t2 3 Hpoll
              eq_refl eq_refl eq_refl eq_refl) as [Hproduced _].
  rewrite Hproduced. split; reflexivity.
Defined.

(** C6 as stated fails for a nonzero interval that is negative: with an
    interval of -1 the producer yields the batch of the RUNNING task and is
    finished by the exception of [time.sleep]; the second answer is never
    asked for. *)
Lemma poll_continuation_negative_interval_counterexample :
  let t1 := dict_task [("job-id", VStr "align--alice--17"); ("task-status", VStr "RUNNING")] in
  let t2 := dict_task [("job-id", VStr "align--alice--17"); ("task-status", VStr "SUCCESS")] in
  let provider :=
    {| lookup_job_tasks := fun _ n => match n with O => [t1] | _ => [t2] end |} in
  let query := {| status_list := ["*"]; user_list := ["alice"];
                  job_list := Some ["align--alice--17"]; label_list := [];
                  max_age := None; max_tasks := None |} in
  -1 <> 0 /\
  dstat_job_producer provider query false (-1) false 5 =
    ([Yield [prepare_row t1 false]; Raised IOError], DONE) /\
  ~ (forall (poll_interval : Z) (fuel : nat), poll_interval <> 0 ->
       length (batches (fst (dstat_job_producer provider query false
                               poll_interval false (S (S fuel))))) = 2%nat).
Proof.
  intros t1 t2 provider query.
  split; [discriminate|]. split; [reflexivity|].
  intros Hclaim.
  assert (Hneg : -1 <> 0) by discriminate.
  discriminate (Hclaim (-1) 3%nat Hneg).
Qed.

Lemma outline_run (provider : Provider) (query : Query) (poll_interval : Z)
  (full_output full_output' raw_format raw_format' : bool) (fuel : nat) :
  forall n,
    map outline (fst (run provider query full_output poll_interval raw_format
                          fuel (POLLING n))) =
    map outline (fst (run provider query full_output' poll_interval raw_format'
                          fuel (POLLING n))) /\
    snd (run provider query full_output poll_interval raw_format fuel (POLLING n)) =
    snd (run provider query full_output' poll_interval raw_format' fuel (POLLING n)).
Proof.
  induction fuel as [|fuel IH]; intros n; [now split|].
  rewrite !run_S. cbv zeta.
  destruct (negb (poll_interval =? 0) &&
            existsb is_running (lookup_job_tasks provider query n)).
  - destruct (time_sleep poll_interval).
    + destruct (IH (S n)) as [Hevs Hst]. cbn [fst snd map outline].
      now rewrite Hevs, Hst, !map_map.
    + cbn [fst snd map outline]. now rewrite !map_map.
  - cbn [fst snd map outline]. now rewrite !map_map.
Qed.

Lemma batches_outline (evs : list event) :
  length (batches evs) = length (batches (map outline evs)).
Proof.
  induction evs as [|[b|secs|e] evs IH]; simpl; congruence.
Qed.

(** C8. For a given provider, query and [poll_interval], the producer makes
    the same decisions whatever [raw_format] and [full_output] are: from any
    cycle and for any fuel, the two runs yield the same number of batches,
    of the same sizes, with the same sleeps between them, and end in the
    same state. The decision after a batch is a function of [poll_interval]
    and of whether some task of the cycle has task-status RUNNING. *)
Theorem continuation_independent_of_format (provider : Provider) (query : Query)
  (poll_interval : Z) (full_output full_output' raw_format raw_format' : bool)
  (fuel n : nat) :
  let run1 := run provider query full_output poll_interval raw_format fuel (POLLING n) in
  let run2 := run provider query full_output' poll_interval raw_format' fuel (POLLING n) in
  length (batches (fst run1)) = length (batches (fst run2)) /\
  map outline (fst run1) = map outline (fst run2) /\
  snd run1 = snd run2 /\
  snd (step provider query full_output poll_interval raw_format (POLLING n)) =
    (if negb (poll_interval =? 0) &&
        existsb is_running (lookup_job_tasks provider query n)
     then POLLING (S n) else DONE).
Proof.
  intros run1 run2. subst run1 run2.
  destruct (outline_run provider query poll_interval full_output full_output'
              raw_format raw_format' fuel n) as [Hevs Hst].
  repeat split; trivial.
  - now rewrite batches_outline, Hevs, <- batches_outline.
  - now rewrite step_closed.
Qed.

(** ** The consumer loop *)

(** C3. The loop of [main] does not print a cycle's batch as one block: it
    builds and prints a one-row table for every row. With the JSON formatter
    a batch of [n] rows comes out as [n] documents of one row each; with the
    text formatter a batch of two rows comes out as two tables, each under
    its own header line; an empty batch prints nothing. *)
Theorem main_prints_one_table_per_row :
  (forall (full : bool) (tasks : list Row),
     print_rows (JsonOutput full) tasks =
       (map (fun row => JsonDumps [row]) tasks, None) /\
     length (blocks (fst (print_rows (JsonOutput full) tasks))) = length tasks) /\
  (let r1 := [("job-name", VStr "align"); ("status-message", VStr "RUNNING")] in
   let r2 := [("job-name", VStr "sort"); ("status-message", VStr "RUNNING")] in
   print_batches (TextOutput false) [[r1; r2]] =
     ([Tabulate [[("Job Name", VStr "align"); ("Status", VStr "RUNNING")]];
       BlankLine;
       Tabulate [[("Job Name", VStr "sort"); ("Status", VStr "RUNNING")]];
       BlankLine], None)) /\
  print_batches (TextOutput false) [[]] = ([], None).
Proof.
  repeat split.
  - induction tasks as [|row tasks IH]; [reflexivity|].
    cbn [print_rows prepare_output print_table]. rewrite IH. reflexivity.
  - induction tasks as [|row tasks IH]; [reflexivity|].
    cbn [print_rows prepare_output print_table].
    destruct (print_rows (JsonOutput full) tasks) as [out err].
    cbn [fst app blocks filter is_block length] in *. now rewrite <- IH.
Qed.

(** * Further properties *)

(** ** The loop of the text formatter in closed form *)

Lemma emit_columns_closed (row : Row) (cols : list column) : forall new_row : Row,
  NoDup (map label cols) ->
  (forall col, In col cols -> dict_get (label col) new_row = None) ->
  (forall col e, In col cols -> cell row col <> Some (Raise e)) ->
  emit_columns row new_row cols = Ok (new_row ++ cells row cols).
Proof.
  induction cols as [|c cols IH]; intros new_row Hnd Hfresh Hok; simpl.
  - now rewrite app_nil_r.
  - inversion Hnd as [|? ? Hnotin Hnd']; subst.
    assert (Hok' : forall col e, In col cols -> cell row col <> Some (Raise e))
      by (intros col e Hin; apply Hok; now right).
    rewrite emit_column_cell.
    destruct (cell row c) as [[v|e]|] eqn:Hcell; cbn [bind].
    + rewrite dict_set_fresh by (apply Hfresh; now left).
      rewrite IH; trivial.
      * now rewrite <- app_assoc.
      * intros col Hin. rewrite dict_get_app, Hfresh by now right.
        simpl. destruct (String.eqb_spec (label c) (label col)) as [E|E]; [|reflexivity].
        exfalso. apply Hnotin. rewrite E. now apply in_map.
    + exfalso. now apply (Hok c e); [left|].
    + apply IH; trivial. intros col Hin. apply Hfresh. now right.
Qed.

(** The first column whose formatting function raises ends the loop with
    its exception. *)
Lemma emit_columns_raises (row : Row) (before : list column) (col : column)
  (after : list column) (e : exn) : forall new_row : Row,
  (forall c e', In c before -> cell row c <> Some (Raise e')) ->
  cell row col = Some (Raise e) ->
  emit_columns row new_row (before ++ col :: after) = Raise e.
Proof.
  induction before as [|c before IH]; intros new_row Hok Hcell; simpl.
  - now rewrite emit_column_cell, Hcell.
  - rewrite emit_column_cell.
    destruct (cell row c) as [[v|e']|] eqn:Hc; cbn [bind].
    + apply IH; trivial. intros c' e' Hin. apply Hok. now right.
    + exfalso. now apply (Hok c e'); [left|].
    + apply IH; trivial. intros c' e' Hin. apply Hok. now right.
Qed.

Lemma cells_keys (row : Row) (cols : list column) :
  (forall col e, In col cols -> cell row col <> Some (Raise e)) ->
  dict_keys (cells row cols) = map label (filter (has_field row) cols).
Proof.
  induction cols as [|c cols IH]; intros Hok; [reflexivity|].
  assert (Hok' : forall col e, In col cols -> cell row col <> Some (Raise e))
    by (intros col e Hin; apply Hok; now right).
  unfold dict_keys in *. cbn [cells flat_map filter].
  fold (cells row cols). rewrite map_app, IH by assumption.
  assert (Hc : forall e, cell row c <> Some (Raise e)) by (intros e; apply Hok; now left).
  unfold has_field, field_of. unfold cell in *.
  destruct c as [[f l] fmt]. cbn [fst snd] in *.
  destruct (dict_get f row) as [v|]; [|reflexivity].
  destruct fmt as [fn|]; [|reflexivity].
  destruct (fn v) as [v'|e]; [reflexivity|].
  exfalso. now apply (Hc e).
Qed.

Lemma first_raised_None (row : Row) (cols : list column) :
  first_raised row cols = None <->
  forall col e, In col cols -> cell row col <> Some (Raise e).
Proof.
  induction cols as [|c cols IH]; simpl.
  - split; [intros _ col e [] | reflexivity].
  - unfold raised at 1. split.
    + intros H col e [<-|Hin].
      * destruct (cell row c) as [[v|e']|]; congruence.
      * destruct (cell row c) as [[v|e']|]; try discriminate; now apply IH.
    + intros H.
      assert (Hc : forall e, cell row c <> Some (Raise e)) by (intros e; apply H; now left).
      destruct (cell row c) as [[v|e']|];
        try (apply IH; intros col e Hin; apply H; now right).
      exfalso. now apply (Hc e').
Qed.

Lemma emit_columns_first_raised (row : Row) (cols : list column) (e : exn) :
  forall new_row : Row,
  first_raised row cols = Some e -> emit_columns row new_row cols = Raise e.
Proof.
  induction cols as [|c cols IH]; intros new_row; simpl; [discriminate|].
  rewrite emit_column_cell. unfold raised.
  destruct (cell row c) as [[v|e']|]; cbn [bind].
  - apply IH.
  - congruence.
  - apply IH.
Qed.

Lemma filter_keeps_NoDup {A B : Type} (p : A -> bool) (f : A -> B) :
  forall xs : list A, NoDup (map f xs) -> NoDup (map f (filter p xs)).
Proof.
  intros xs. induction xs as [|a xs IH]; cbn; intros Hnd; [exact Hnd|].
  apply NoDup_cons_iff in Hnd as [Hfresh Hnd].
  destruct (p a); cbn; [|now apply IH].
  apply NoDup_cons; [|now apply IH].
  contradict Hfresh. apply in_map_iff in Hfresh as (a' & Heq & Hin).
  apply in_map_iff. exists a'. split; [exact Heq|].
  now apply filter_In in Hin.
Qed.

(** ** prepare_output of the text formatter, in full *)

Lemma emit_column_map (full : bool) (row : Row) :
  emit_columns row [] (column_map (TextOutput full)) =
  match first_raised row (column_map (TextOutput full)) with
  | Some e => Raise e
  | None => Ok (cells row (column_map (TextOutput full)))
  end.
Proof.
  destruct (first_raised row (column_map (TextOutput full))) as [e|] eqn:Hfirst.
  - now apply emit_columns_first_raised.
  - rewrite emit_columns_closed; trivial.
    + apply column_map_NoDup.
    + now apply first_raised_None.
Qed.

(** X1. [prepare_output] of the text formatter either stores, for every
    column of [column_map] whose field the row has, the formatted value under
    the column's label, in the order of [column_map]; or, when a formatting
    function raises, it raises the exception of the first such column. *)
Theorem text_prepare_output_closed (full : bool) (row : Row) :
  let cols := column_map (TextOutput full) in
  prepare_output (TextOutput full) row =
  match first_raised row cols with
  | Some e => Raise e
  | None => Ok (cells row cols)
  end.
Proof. intros cols. apply emit_column_map. Qed.

(** X2. When the text formatter returns a row, its labels are those of the
    [column_map] entries whose field the input row has, in the order of
    [column_map] whatever the order of the input row; no label occurs twice;
    and a column without formatting function carries the field's value
    unchanged. *)
Theorem text_prepare_output_labels (full : bool) (row new_row : Row)
  (Hok : prepare_output (TextOutput full) row = Ok new_row) :
  dict_keys new_row =
    map label (filter (has_field row) (column_map (TextOutput full))) /\
  NoDup (dict_keys new_row) /\
  (forall f l, In (f, l, None) (column_map (TextOutput full)) ->
     dict_get l new_row = dict_get f row).
Proof.
  unfold prepare_output in Hok. rewrite emit_column_map in Hok.
  destruct (first_raised row (column_map (TextOutput full))) eqn:Hfirst;
    [discriminate|].
  assert (Hnew : new_row = cells row (column_map (TextOutput full)))
    by congruence.
  subst new_row. clear Hok.
  pose proof (proj1 (first_raised_None _ _) Hfirst) as Hcells.
  assert (Hkeys : dict_keys (cells row (column_map (TextOutput full))) =
                  map label (filter (has_field row) (column_map (TextOutput full))))
    by now apply cells_keys.
  split; [exact Hkeys|]. split.
  - rewrite Hkeys. apply filter_keeps_NoDup, column_map_NoDup.
  - intros f l Hin.
    destruct (emit_columns_ok row (column_map (TextOutput full)) [])
      as (out & Hrun & Hget); [apply column_map_NoDup | exact Hcells |].
    rewrite emit_columns_closed in Hrun;
      [|apply column_map_NoDup | reflexivity | exact Hcells].
    assert (Hout : out = cells row (column_map (TextOutput full)))
      by (cbn [app] in Hrun; congruence).
    subst out. rewrite Hget.
    cbn [column_map In] in Hin.
    repeat (destruct Hin as [Heq|Hin];
            [inversion Heq; subst;
             cbn [column_map find label fst snd String.eqb Ascii.eqb Bool.eqb];
             unfold cell; now destruct (dict_get _ row) |]).
    contradiction.
Qed.

Lemma text_prepare_output_labels_witness :
  let row := [("last-update", VStr "today"); ("status", VStr "RUNNING");
              ("job-name", VStr "align")] in
  let new_row := [("Job Name", VStr "align"); ("Last Update", VStr "today")] in
  prepare_output (TextOutput false) row = Ok new_row /\
  dict_keys new_row = ["Job Name"; "Last Update"] /\
  dict_get "Job Name" new_row = dict_get "job-name" row.
Proof.
  intros row new_row.
  assert (Hok : prepare_output (TextOutput false) row = Ok new_row) by reflexivity.
  split; [exact Hok|].
  destruct (text_prepare_output_labels false row new_row Hok) as (Hkeys & _ & Hplain).
  split.
  - rewrite Hkeys. reflexivity.
  - apply Hplain. cbn. tauto.
Defined.

(** ** Truncation in the text formatter *)

Lemma raised_plain (row : Row) (field text_label : string) :
  raised row (field, text_label, None) = None.
Proof. unfold raised, cell. now destruct (dict_get field row). Qed.

Lemma raised_formatted (row : Row) (field text_label : string)
  (fn : pyval -> result pyval) (e : exn) :
  raised row (field, text_label, Some fn) = Some e ->
  exists v, dict_get field row = Some v /\ fn v = Raise e.
Proof.
  unfold raised, cell. destruct (dict_get field row) as [v|]; [|discriminate].
  destruct (fn v) eqn:E; [discriminate|]. intros H. exists v. split; congruence.
Qed.

(** Only the three columns with a formatting function can make the text
    formatter raise. *)
Lemma first_raised_column_map (full : bool) (row : Row) (e : exn) :
  first_raised row (column_map (TextOutput full)) = Some e ->
  exists k v,
    dict_get k row = Some v /\
    ((k = "status-message" /\ format_status (TextOutput full) v = Raise e) \/
     ((k = "inputs" \/ k = "outputs") /\ format_inputs_outputs v = Raise e)).
Proof.
  cbn [column_map first_raised]. rewrite !raised_plain.
  destruct (raised row ("status-message", "Status", _)) as [e1|] eqn:E1.
  { intros H. apply raised_formatted in E1 as (v & Hv & Hf).
    exists "status-message", v. split; [exact Hv|]. left. split; congruence. }
  destruct (raised row ("inputs", "Inputs", _)) as [e2|] eqn:E2.
  { intros H. apply raised_formatted in E2 as (v & Hv & Hf).
    exists "inputs", v. split; [exact Hv|]. right. split; [tauto | congruence]. }
  destruct (raised row ("outputs", "Outputs", _)) as [e3|] eqn:E3; [|discriminate].
  intros H. apply raised_formatted in E3 as (v & Hv & Hf).
  exists "outputs", v. split; [exact Hv|]. right. split; [tauto | congruence].
Qed.

(** What the returned row holds under the labels Status and Status-details. *)
Lemma cells_status (full : bool) (row : Row) :
  first_raised row (column_map (TextOutput full)) = None ->
  dict_get "Status" (cells row (column_map (TextOutput full))) =
    match dict_get "status-message" row with
    | Some v => match format_status (TextOutput full) v with
                | Ok v' => Some v'
                | Raise _ => None
                end
    | None => None
    end /\
  dict_get "Status-details" (cells row (column_map (TextOutput full))) =
    dict_get "status-detail" row.
Proof.
  intros Hfirst.
  pose proof (proj1 (first_raised_None _ _) Hfirst) as Hcells.
  destruct (emit_columns_ok row (column_map (TextOutput full)) [])
    as (out & Hrun & Hget); [apply column_map_NoDup | exact Hcells |].
  rewrite emit_column_map, Hfirst in Hrun.
  assert (Hout : out = cells row (column_map (TextOutput full))) by congruence.
  subst out. split; rewrite Hget;
    cbn [column_map find label fst snd String.eqb Ascii.eqb Bool.eqb];
    unfold cell.
  - destruct (dict_get "status-message" row) as [v|]; [|reflexivity].
    now destruct (format_status (TextOutput full) v).
  - now destruct (dict_get "status-detail" row).
Qed.

(** C4, as the code has it. The text formatter cuts the status-message
    field, shown under the label Status: a status-message string longer than
    30 characters is rendered as its first 27 characters followed by three
    dots when [full] is unset, and unmodified when [full] is set. Every
    status-detail value, shown under Status-details, is rendered unmodified
    whether [full] is set or not. The formatter returns no row at all only
    when a formatting function raises: on the status-message, the inputs or
    the outputs of the row. *)
Theorem text_status_message_truncation (full : bool) (row : Row) :
  (forall s : string,
     dict_get "status-message" row = Some (VStr s) -> 30 < len s ->
     exists head tail : string,
       s = (head ++ tail)%string /\ len head = 27 /\
       match prepare_output (TextOutput full) row with
       | Ok new_row =>
           dict_get "Status" new_row =
             Some (VStr (if full then s else (head ++ "...")%string))
       | Raise e =>
           exists k v,
             (k = "inputs" \/ k = "outputs") /\
             dict_get k row = Some v /\ format_inputs_outputs v = Raise e
       end) /\
  (forall d : pyval,
     dict_get "status-detail" row = Some d ->
     match prepare_output (TextOutput full) row with
     | Ok new_row => dict_get "Status-details" new_row = Some d
     | Raise e =>
         exists k v,
           dict_get k row = Some v /\
           ((k = "status-message" /\ format_status (TextOutput full) v = Raise e) \/
            ((k = "inputs" \/ k = "outputs") /\ format_inputs_outputs v = Raise e))
     end).
Proof.
  unfold prepare_output. rewrite emit_column_map.
  destruct (first_raised row (column_map (TextOutput full))) as [e|] eqn:Hfirst.
  - apply first_raised_column_map in Hfirst as (k & v & Hv & Hwhy). split.
    + intros s Hmsg Hlong.
      destruct (trim_long s 30) as (Htrim & tail & Hs & Hlen); [lia|].
      exists (slice_to s (30 - 3)), tail. split; [exact Hs|]. split; [exact Hlen|].
      destruct Hwhy as [[-> Hstatus]|[Hk Hio]].
      * exfalso. rewrite Hmsg in Hv. injection Hv as <-.
        unfold format_status in Hstatus. cbn [_full] in Hstatus.
        destruct full; [discriminate|].
        unfold _MAX_ERROR_MESSAGE_LENGTH in Hstatus. congruence.
      * now exists k, v.
    + intros d _. now exists k, v.
  - destruct (cells_status full row Hfirst) as [Hstatus Hdetail]. split.
    + intros s Hmsg Hlong.
      destruct (trim_long s 30) as (Htrim & tail & Hs & Hlen); [lia|].
      exists (slice_to s (30 - 3)), tail. split; [exact Hs|]. split; [exact Hlen|].
      rewrite Hstatus, Hmsg. unfold format_status. cbn [_full].
      destruct full; [reflexivity|].
      unfold _MAX_ERROR_MESSAGE_LENGTH. now rewrite Htrim.
    + intros d Hd. now rewrite Hdetail.
Qed.

Lemma text_status_message_truncation_witness :
  let s := "0123456789012345678901234567890123456789" in
  let row := [("status-message", VStr s); ("status-detail", VStr s)] in
  let only_detail := [("status-detail", VStr s)] in
  dict_get "status-message" row = Some (VStr s) /\
  30 < len s /\
  dict_get "status-detail" only_detail = Some (VStr s) /\
  (exists (new_row : Row) (head tail : string),
     prepare_output (TextOutput false) row = Ok new_row /\
     s = (head ++ tail)%string /\ len head = 27 /\
     dict_get "Status" new_row = Some (VStr (head ++ "..."))) /\
  (exists new_row : Row,
     prepare_output (TextOutput false) only_detail = Ok new_row /\
     dict_get "Status-details" new_row = Some (VStr s)).
Proof.
  intros s row only_detail.
  assert (Hmsg : dict_get "status-message" row = Some (VStr s)) by reflexivity.
  assert (Hlong : 30 < len s) by reflexivity.
  assert (Hdetail : dict_get "status-detail" only_detail = Some (VStr s))
    by reflexivity.
  split; [exact Hmsg|]. split; [exact Hlong|]. split; [exact Hdetail|]. split.
  - destruct (text_status_message_truncation false row) as [Hstatus _].
    destruct (Hstatus s Hmsg Hlong) as (head & tail & Hs & Hlen & Hout).
    destruct (prepare_output (TextOutput false) row) as [new_row|e] eqn:Hrun;
      [|discriminate Hrun].
    now exists new_row, head, tail.
  - destruct (text_status_message_truncation false only_detail) as [_ Hkeep].
    specialize (Hkeep (VStr s) Hdetail).
    destruct (prepare_output (TextOutput false) only_detail) as [new_row|e] eqn:Hrun;
      [|discriminate Hrun].
    now exists new_row.
Defined.

(** The statement of C4 about status-detail fails: with [full] unset, a
    status-detail of forty characters comes out of the text formatter whole,
    not cut to twenty-seven characters and three dots. *)
Lemma status_detail_truncation_counterexample :
  let s := "0123456789012345678901234567890123456789" in
  prepare_output (TextOutput false) [("status-detail", VStr s)] =
    Ok [("Status-details", VStr s)] /\
  ~ (forall (full : bool) (s : string), 30 < len s ->
       exists head tail : string,
         s = (head ++ tail)%string /\ len head = 27 /\
         prepare_output (TextOutput full) [("status-detail", VStr s)] =
           Ok [("Status-details",
                VStr (if full then s else (head ++ "...")%string))]).
Proof.
  intros s.
  assert (Hrun : prepare_output (TextOutput false) [("status-detail", VStr s)] =
                 Ok [("Status-details", VStr s)]) by reflexivity.
  split; [exact Hrun|].
  intros Hclaim.
  destruct (Hclaim false s eq_refl) as (head & tail & _ & Hlen & Hout).
  rewrite Hrun in Hout. injection Hout as Heq.
  apply (f_equal String.length) in Heq. rewrite length_app in Heq.
  unfold len in Hlen. simpl in Heq. lia.
Qed.

(** ** Lengths of trimmed strings *)


Lemma len_app (s1 s2 : string) : len (s1 ++ s2) = len s1 + len s2.
Proof. unfold len. rewrite length_app. lia. Qed.

(** X3. With [full] unset, [format_status] turns every string into a string
    of at most 30 characters: its length is the smaller of the input's
    length and 30. With [full] set, any value is passed through. *)
Theorem format_status_length (s : string) :
  (exists r, format_status (TextOutput false) (VStr s) = Ok (VStr r) /\
             len r = Z.min (len s) 30) /\
  (forall status, format_status (TextOutput true) status = Ok status).
Proof.
  split; [|reflexivity].
  unfold format_status. cbn [_full]. unfold _MAX_ERROR_MESSAGE_LENGTH.
  destruct (Z_le_gt_dec (len s) 30) as [Hle|Hgt].
  - exists s. split; [now apply trim_short | lia].
  - destruct (trim_long s 30) as (Heq & tail & _ & Hlen); [lia|].
    exists (slice_to s (30 - 3) ++ "...")%string. split; [exact Heq|].
    rewrite len_app, Hlen. cbn. lia.
Qed.



(** ** sorted and format_inputs_outputs *)

Section ItemOrder.
Import OrderedTypeEx.

Lemma compare_refl (a : string) : String.compare a a = Eq.
Proof. now apply String_as_OT.cmp_eq. Qed.

Lemma compare_lt_trans (a b c : string) :
  String.compare a b = Lt -> String.compare b c = Lt -> String.compare a c = Lt.
Proof.
  intros Hab Hbc. apply String_as_OT.cmp_lt.
  apply String_as_OT.lt_trans with b; now apply String_as_OT.cmp_lt.
Qed.

Lemma leb_trans (a b c : string) :
  String.leb a b = true -> String.leb b c = true -> String.leb a c = true.
Proof.
  unfold String.leb.
  destruct (String.compare a b) eqn:Hab; try discriminate; intros _;
    destruct (String.compare b c) eqn:Hbc; try discriminate; intros _.
  - apply String.compare_eq_iff in Hab, Hbc. subst. now rewrite compare_refl.
  - apply String.compare_eq_iff in Hab. subst. now rewrite Hbc.
  - apply String.compare_eq_iff in Hbc. subst. now rewrite Hab.
  - now rewrite (compare_lt_trans a b c).
Qed.

Lemma item_leb_total (a b : string * string) :
  item_leb a b = true \/ item_leb b a = true.
Proof.
  unfold item_leb. rewrite (String.compare_antisym (fst b) (fst a)).
  destruct (String.compare (fst a) (fst b)) eqn:E; simpl; auto.
  apply String.leb_total.
Qed.

Lemma item_leb_trans (a b c : string * string) :
  item_leb a b = true -> item_leb b c = true -> item_leb a c = true.
Proof.
  unfold item_leb.
  destruct (String.compare (fst a) (fst b)) eqn:Hab; try discriminate;
    destruct (String.compare (fst b) (fst c)) eqn:Hbc; try discriminate;
    intros H1 H2.
  - apply String.compare_eq_iff in Hab, Hbc. rewrite Hab, Hbc, compare_refl.
    now apply leb_trans with (snd b).
  - apply String.compare_eq_iff in Hab. now rewrite Hab, Hbc.
  - apply String.compare_eq_iff in Hbc. now rewrite <- Hbc, Hab.
  - now rewrite (compare_lt_trans _ _ _ Hab Hbc).
Qed.

Lemma item_leb_antisym (a b : string * string) :
  item_leb a b = true -> item_leb b a = true -> a = b.
Proof.
  unfold item_leb. rewrite (String.compare_antisym (fst b) (fst a)).
  destruct (String.compare (fst a) (fst b)) eqn:E; simpl; try discriminate.
  intros H1 H2. apply String.compare_eq_iff in E.
  destruct a, b; simpl in *. f_equal; [exact E | now apply String.leb_antisym].
Qed.
End ItemOrder.

Lemma insert_item_perm (x : string * string) (l : list (string * string)) :
  Permutation (insert_item x l) (x :: l).
Proof.
  induction l as [|y l IH]; simpl; [reflexivity|].
  destruct (item_leb x y); [reflexivity|].
  rewrite IH. apply perm_swap.
Qed.

Lemma insert_item_sorted (x : string * string) (l : list (string * string)) :
  StronglySorted (fun a b => item_leb a b = true) l ->
  StronglySorted (fun a b => item_leb a b = true) (insert_item x l).
Proof.
  induction l as [|y l IH]; simpl; intros Hs.
  - repeat constructor.
  - inversion Hs as [|? ? Hs' Hall]; subst.
    destruct (item_leb x y) eqn:E.
    + constructor; [assumption|]. constructor; [assumption|].
      eapply Forall_impl; [|exact Hall].
      intros z Hz. now apply item_leb_trans with y.
    + constructor; [now apply IH|].
      assert (Hyx : item_leb y x = true)
        by (destruct (item_leb_total x y); congruence).
      eapply Permutation_Forall; [symmetry; apply insert_item_perm|].
      now constructor.
Qed.

Lemma sorted_unique (l1 : list (string * string)) : forall l2,
  StronglySorted (fun a b => item_leb a b = true) l1 ->
  StronglySorted (fun a b => item_leb a b = true) l2 ->
  Permutation l1 l2 -> l1 = l2.
Proof.
  induction l1 as [|a l1 IH]; intros l2 H1 H2 Hp.
  - now apply Permutation_nil in Hp.
  - destruct l2 as [|b l2]; [apply Permutation_sym, Permutation_nil in Hp; discriminate|].
    inversion H1 as [|? ? H1' Hall1]; inversion H2 as [|? ? H2' Hall2]; subst.
    assert (Hab : a = b).
    { assert (Ha : In a (b :: l2))
        by (apply (Permutation_in _ Hp); now left).
      assert (Hb : In b (a :: l1))
        by (apply (Permutation_in _ (Permutation_sym Hp)); now left).
      destruct Ha as [->|Ha]; [reflexivity|].
      destruct Hb as [->|Hb]; [reflexivity|].
      apply item_leb_antisym.
      - rewrite Forall_forall in Hall1. now apply Hall1.
      - rewrite Forall_forall in Hall2. now apply Hall2. }
    subst b. f_equal. apply IH; trivial.
    now apply Permutation_cons_inv with a.
Qed.

Lemma sorted_perm_sorted (items : list (string * string)) :
  Permutation (sorted items) items /\
  StronglySorted (fun a b => item_leb a b = true) (sorted items).
Proof.
  unfold sorted. induction items as [|x items [IHp IHs]]; simpl.
  - split; constructor.
  - split.
    + rewrite insert_item_perm. now constructor.
    + now apply insert_item_sorted.
Qed.

(** X5. The text [format_inputs_outputs] makes of a mapping does not depend
    on the order in which the mapping hands out its items: two listings of
    the same items give the same string. A value that is no mapping raises
    [AttributeError]. *)
Theorem format_inputs_outputs_order (items items' : list (string * string))
  (Hperm : Permutation items items') :
  format_inputs_outputs (VMap items) = format_inputs_outputs (VMap items') /\
  (forall v, (forall m, v <> VMap m) ->
     format_inputs_outputs v = Raise AttributeError).
Proof.
  split.
  - unfold format_inputs_outputs. do 4 f_equal.
    destruct (sorted_perm_sorted items) as [Hp Hs].
    destruct (sorted_perm_sorted items') as [Hp' Hs'].
    apply sorted_unique; trivial.
    now rewrite Hp, Hperm, Hp'.
  - intros v Hv. destruct v; try reflexivity. now destruct (Hv items0).
Qed.

Lemma format_inputs_outputs_order_witness :
  let items := [("b", "gs://bucket/2"); ("a", "gs://bucket/1")] in
  let items' := [("a", "gs://bucket/1"); ("b", "gs://bucket/2")] in
  Permutation items items' /\
  format_inputs_outputs (VMap items) = Ok (VStr "a=gs://bucket/1, b=gs://bucket/2") /\
  format_inputs_outputs (VMap items) = format_inputs_outputs (VMap items').
Proof.
  intros items items'.
  assert (Hperm : Permutation items items') by apply perm_swap.
  split; [exact Hperm|]. split; [reflexivity|].
  apply (format_inputs_outputs_order items items' Hperm).
Defined.

(** ** The projection followed by the text formatter *)

(** X6. Short output as text: the projected row of any task is shown as
    Job Name, Task (only when the task-id is truthy), Status and Last Update,
    in this order, which is that of [column_map] and not that of the
    projection; Status is the formatted status-message, and the call raises
    exactly when formatting the status-message raises. *)
Theorem text_short_row (task : Task) :
  let task_id := get_field task "task-id" VNone in
  prepare_output (TextOutput false) (prepare_row task false) =
  (status <- format_status (TextOutput false)
                           (get_field task "status-message" VNone) ;;
   Ok ([("Job Name", get_field task "job-name" VNone)] ++
       (if truthy task_id then [("Task", task_id)] else []) ++
       [("Status", status);
        ("Last Update", get_field task "last-update" VNone)])).
Proof.
  intros task_id. subst task_id. unfold prepare_row.
  cbn [columns_of short_columns default_columns app fold_left].
  unfold add_column. cbn [key optional default_value negb orb].
  destruct (truthy (get_field task "task-id" VNone));
    cbv -[format_status get_field];
    destruct (format_status _ _); reflexivity.
Qed.

(** X7. Full output as text: the projected row of any task is shown as
    Job ID, Job Name, Task (only when the task-id is truthy), Status-details,
    Last Update, Created, Ended, User, Internal ID, Logging, Inputs and
    Outputs. There is no Status column, and the status, envs and labels of
    the projection are not shown. The call raises exactly when the inputs or
    the outputs of the task are no mappings. *)
Theorem text_full_row (task : Task) :
  let task_id := get_field task "task-id" VNone in
  prepare_output (TextOutput true) (prepare_row task true) =
  (inputs <- format_inputs_outputs (get_field task "inputs" (VMap [])) ;;
   outputs <- format_inputs_outputs (get_field task "outputs" (VMap [])) ;;
   Ok ([("Job ID", get_field task "job-id" VNone);
        ("Job Name", get_field task "job-name" VNone)] ++
       (if truthy task_id then [("Task", task_id)] else []) ++
       [("Status-details", get_field task "status-detail" VNone);
        ("Last Update", get_field task "last-update" VNone);
        ("Created", get_field task "create-time" VNone);
        ("Ended", get_field task "end-time" (VStr "NA"));
        ("User", get_field task "user-id" VNone);
        ("Internal ID", get_field task "internal-id" VNone);
        ("Logging", get_field task "logging" VNone);
        ("Inputs", inputs);
        ("Outputs", outputs)])).
Proof.
  intros task_id. subst task_id. unfold prepare_row.
  cbn [columns_of full_columns default_columns app fold_left].
  unfold add_column. cbn [key optional default_value negb orb].
  destruct (truthy (get_field task "task-id" VNone));
    cbv -[format_inputs_outputs get_field];
    (destruct (format_inputs_outputs (get_field task "inputs" (VMap [])));
     [destruct (format_inputs_outputs (get_field task "outputs" (VMap [])))|]);
    reflexivity.
Qed.

(** ** The poll loop over many cycles *)

Section ProducerTrace.
Variable provider : Provider.
Variable query : Query.
Variable full_output : bool.
Variable poll_interval : Z.
Variable raw_format : bool.

Lemma running_exists (tasks : list Task) :
  existsb is_running tasks = true <->
  exists task, In task tasks /\ get_field task "task-status" VNone = VStr "RUNNING".
Proof.
  rewrite existsb_exists. split; intros (task & Hin & Hrun); exists task;
    (split; [exact Hin | now apply is_running_spec]).
Qed.


Lemma run_polling (fuel : nat) : forall n : nat,
  0 < poll_interval ->
  (forall i, (n <= i < n + fuel)%nat ->
     existsb is_running (lookup_job_tasks provider query i) = true) ->
  run provider query full_output poll_interval raw_format fuel (POLLING n) =
  (flat_map (fun i => [Yield (map (format_task full_output raw_format)
                                  (lookup_job_tasks provider query i));
                       Sleep poll_interval])
            (seq n fuel),
   POLLING (n + fuel)).
Proof.
  induction fuel as [|fuel IH]; intros n Hpoll Hrunning.
  - cbn. now rewrite Nat.add_0_r.
  - rewrite run_S. cbv zeta.
    rewrite Hrunning by lia.
    assert (Hnz : negb (poll_interval =? 0) = true)
      by (apply negb_true_iff, Z.eqb_neq; lia).
    rewrite Hnz, time_sleep_returns by lia. cbn [andb].
    rewrite IH by (trivial; intros i Hi; apply Hrunning; lia).
    cbn [fst snd seq flat_map app]. now rewrite Nat.add_succ_r.
Qed.


Lemma run_snapshot (fuel n : nat) :
  poll_interval = 0 ->
  run provider query full_output poll_interval raw_format (S fuel) (POLLING n) =
  ([Yield (map (format_task full_output raw_format)
               (lookup_job_tasks provider query n))], DONE).
Proof.
  intros Hzero. rewrite run_S. cbv zeta. now rewrite Hzero.
Qed.

(** Whatever the provider answers, a run from cycle [n] has looked up and
    yielded the answers to cycles [n], [n + 1], ... in order, one batch per
    lookup, and slept [poll_interval] after every batch but the last of a
    finished run. *)
Lemma run_shape (fuel : nat) : forall n : nat,
  exists m : nat,
    (m <= fuel)%nat /\ (0 < fuel -> 0 < m)%nat /\
    batches (fst (run provider query full_output poll_interval raw_format
                      fuel (POLLING n))) =
      map (fun i => map (format_task full_output raw_format)
                        (lookup_job_tasks provider query i)) (seq n m) /\
    match snd (run provider query full_output poll_interval raw_format
                   fuel (POLLING n)) with
    | DONE =>
        sleeps (fst (run provider query full_output poll_interval raw_format
                         fuel (POLLING n))) = repeat poll_interval (m - 1)
    | POLLING next =>
        next = (n + m)%nat /\ m = fuel /\
        sleeps (fst (run provider query full_output poll_interval raw_format
                         fuel (POLLING n))) = repeat poll_interval m
    end.
Proof.
  induction fuel as [|fuel IH]; intros n.
  - exists 0%nat. cbn. repeat split; try lia.
  - rewrite run_S. cbv zeta.
    destruct (negb (poll_interval =? 0) &&
              existsb is_running (lookup_job_tasks provider query n));
      [destruct (time_sleep poll_interval)|].
    + destruct (IH (S n)) as (m & Hle & Hpos & Hb & Hs).
      exists (S m). split; [lia|]. split; [lia|]. cbn [fst snd]. split.
      * cbn [batches seq map]. now rewrite Hb.
      * cbn [sleeps].
        destruct (snd (run provider query full_output poll_interval raw_format
                           fuel (POLLING (S n)))) as [next|] eqn:Hsnd.
        -- destruct Hs as (-> & -> & Hs). rewrite Hs.
           repeat split; lia.
        -- rewrite Hs. destruct m as [|m].
           ++ destruct fuel as [|fuel]; [discriminate Hsnd | lia].
           ++ cbn [Nat.sub repeat]. now rewrite Nat.sub_0_r.
    + exists 1%nat. cbn. repeat split; lia.
    + exists 1%nat. cbn. repeat split; lia.
Qed.
End ProducerTrace.


(** X8. While every answer of the provider holds a task whose task-status
    is RUNNING, and [poll_interval] is positive and within what
    [time.sleep] accepts, the producer never finishes: after any number
    [fuel] of cycles it has yielded [fuel] batches, has slept
    [poll_interval] after each of them, and is about to poll again. *)
Theorem producer_polls_while_running (provider : Provider) (query : Query)
  (full_output : bool) (poll_interval : Z) (raw_format : bool) (fuel : nat)
  (Hpoll : 0 < poll_interval <= sleep_max)
  (Hrunning : forall i, exists task,
      In task (lookup_job_tasks provider query i) /\
      get_field task "task-status" VNone = VStr "RUNNING") :
  dstat_job_producer provider query full_output poll_interval raw_format fuel =
  (flat_map (fun i => [Yield (map (format_task full_output raw_format)
                                  (lookup_job_tasks provider query i));
                       Sleep poll_interval])
            (seq 0 fuel),
   POLLING fuel).
Proof.
  unfold dstat_job_producer. rewrite run_polling; trivial; [lia|].
  intros i _. apply running_exists. apply Hrunning.
Qed.

Lemma producer_polls_while_running_witness :
  let busy := dict_task [("job-name", VStr "align"); ("task-status", VStr "RUNNING")] in
  let provider := {| lookup_job_tasks := fun _ _ => [busy] |} in
  let query := {| status_list := ["RUNNING"]; user_list := ["alice"];
                  job_list := None; label_list := []; max_age := None;
                  max_tasks := None |} in
  0 < 5 <= sleep_max /\
  (forall i, exists task,
      In task (lookup_job_tasks provider query i) /\
      get_field task "task-status" VNone = VStr "RUNNING") /\
  snd (dstat_job_producer provider query false 5 false 7) = POLLING 7 /\
  length (batches (fst (dstat_job_producer provider query false 5 false 7))) = 7%nat.
Proof.
  intros busy provider query.
  assert (Hpoll : 0 < 5 <= sleep_max) by (unfold sleep_max; lia).
  assert (Hrunning : forall i, exists task,
             In task (lookup_job_tasks provider query i) /\
             get_field task "task-status" VNone = VStr "RUNNING").
  { intros i. exists busy. split; [now left | reflexivity]. }
  split; [exact Hpoll|]. split; [exact Hrunning|].
  rewrite (producer_polls_while_running provider query false 5 false 7 Hpoll Hrunning).
  split; reflexivity.
Defined.




(** ** The consumer loop over rows and batches *)

Lemma print_rows_app (output_formatter : OutputFormatter) (rows : list Row) :
  forall rows' : list Row,
  print_rows output_formatter (rows ++ rows') =
  match print_rows output_formatter rows with
  | (out, Some e) => (out, Some e)
  | (out, None) =>
      (out ++ fst (print_rows output_formatter rows'),
       snd (print_rows output_formatter rows'))
  end.
Proof.
  induction rows as [|row rows IH]; intros rows'.
  - cbn [app print_rows]. now destruct (print_rows output_formatter rows').
  - cbn [app print_rows]. destruct (prepare_output output_formatter row); [|reflexivity].
    rewrite IH. destruct (print_rows output_formatter rows) as [out [e|]].
    + reflexivity.
    + now rewrite app_assoc.
Qed.

Lemma print_batches_concat' (output_formatter : OutputFormatter)
  (job_producer : list (list Row)) :
  print_batches output_formatter job_producer =
  print_rows output_formatter (concat job_producer).
Proof.
  induction job_producer as [|tasks rest IH]; [reflexivity|].
  cbn [print_batches concat]. rewrite print_rows_app, IH.
  destruct (print_rows output_formatter tasks) as [out [e|]]; [reflexivity|].
  now destruct (print_rows output_formatter (concat rest)).
Qed.

(** X11. The output of the consumer loop depends on the rows only, not on
    how the poll cycles group them: printing a sequence of batches is
    printing their rows one after the other, and so is printing the batches
    in two parts. *)
Theorem print_batches_concat (output_formatter : OutputFormatter)
  (job_producer later : list (list Row)) :
  print_batches output_formatter job_producer =
    print_rows output_formatter (concat job_producer) /\
  print_batches output_formatter (job_producer ++ later) =
    match print_batches output_formatter job_producer with
    | (out, Some e) => (out, Some e)
    | (out, None) =>
        (out ++ fst (print_batches output_formatter later),
         snd (print_batches output_formatter later))
    end.
Proof.
  split; [apply print_batches_concat'|].
  now rewrite !print_batches_concat', concat_app, print_rows_app.
Qed.

Lemma print_rows_all_ok (output_formatter : OutputFormatter) (rows : list Row) :
  forall shown : list Row,
  Forall2 (fun row row' => prepare_output output_formatter row = Ok row') rows shown ->
  print_rows output_formatter rows =
  (flat_map (fun row' => print_table output_formatter [row']) shown, None).
Proof.
  induction rows as [|row rows IH]; intros shown Hall; inversion Hall; subst.
  - reflexivity.
  - cbn [print_rows flat_map]. rewrite H1.
    rewrite (IH _ H3). reflexivity.
Qed.

(** X12. When [prepare_output] raises on a row, the tables of the rows
    before it have been printed, one table per row, and nothing is printed
    for that row or any row after it; the exception is the one of that
    first failing row. When it raises on no row, every row is printed. *)
Theorem print_rows_stops_at_error (output_formatter : OutputFormatter)
  (good shown : list Row) (bad : Row) (rest : list Row) (e : exn)
  (Hgood : Forall2 (fun row row' => prepare_output output_formatter row = Ok row')
                   good shown)
  (Hbad : prepare_output output_formatter bad = Raise e) :
  print_rows output_formatter (good ++ bad :: rest) =
    (flat_map (fun row' => print_table output_formatter [row']) shown, Some e) /\
  print_rows output_formatter good =
    (flat_map (fun row' => print_table output_formatter [row']) shown, None).
Proof.
  split; [|now apply print_rows_all_ok].
  rewrite print_rows_app, (print_rows_all_ok _ _ _ Hgood).
  cbn [print_rows]. rewrite Hbad. cbn [fst snd]. now rewrite app_nil_r.
Qed.

Lemma print_rows_stops_at_error_witness :
  let good := [[("job-name", VStr "align"); ("status-message", VStr "RUNNING")]] in
  let shown := [[("Job Name", VStr "align"); ("Status", VStr "RUNNING")]] in
  let bad := [("job-name", VStr "sort"); ("status-message", VInt 7)] in
  let rest := [[("job-name", VStr "merge")]] in
  Forall2 (fun row row' => prepare_output (TextOutput false) row = Ok row') good shown /\
  prepare_output (TextOutput false) bad = Raise TypeError /\
  print_rows (TextOutput false) (good ++ bad :: rest) =
    ([Tabulate shown; BlankLine], Some TypeError).
Proof.
  intros good shown bad rest.
  assert (Hgood : Forall2 (fun row row' => prepare_output (TextOutput false) row = Ok row')
                          good shown) by (repeat constructor).
  assert (Hbad : prepare_output (TextOutput false) bad = Raise TypeError) by reflexivity.
  split; [exact Hgood|]. split; [exact Hbad|].
  destruct (print_rows_stops_at_error (TextOutput false) good shown bad rest
              TypeError Hgood Hbad) as [Hstop _].
  etransitivity; [exact Hstop | reflexivity].
Defined.

(** ** main *)

Section MainFacts.
Variable age_to_create_time : option string -> option Z.
Variable get_provider : Namespace.t -> Provider.
Variable get_os_user : string.
Variable parse_pair_args : list string -> list (string * string).

(** X13. Without [--wait], [main] looks up the tasks once and prints them:
    whatever [--poll-interval] says, the producer is run with interval zero,
    so the output is that of the rows of the first answer, and no later
    answer of the provider is asked for. *)
Theorem main_without_wait (args : Namespace.t) (fuel : nat)
  (Hwait : Namespace.wait args = false) :
  let query := main_query age_to_create_time get_os_user parse_pair_args args in
  let raw_format :=
    match Namespace.format args with
    | Some f => (f =? "provider-json")%string
    | None => false
    end in
  main age_to_create_time get_provider get_os_user parse_pair_args args (S fuel) =
  print_rows (select_formatter args)
             (map (format_task (Namespace.full args) raw_format)
                  (lookup_job_tasks (get_provider args) query 0)).
Proof.
  intros query raw_format. unfold main. rewrite Hwait.
  unfold dstat_job_producer. rewrite run_snapshot by reflexivity.
  cbn [fst batches raised_by]. rewrite print_batches_concat'.
  cbn [concat]. rewrite app_nil_r.
  now destruct (print_rows _ _) as [out [e|]].
Qed.
End MainFacts.

Lemma main_without_wait_witness :
  let busy := dict_task [("job-name", VStr "align"); ("status-message", VStr "running");
                         ("task-status", VStr "RUNNING")] in
  let provider := {| lookup_job_tasks := fun _ _ => [busy] |} in
  let args := {| Namespace.project := None; Namespace.jobs := None;
                 Namespace.users := []; Namespace.status := ["RUNNING"];
                 Namespace.age := None; Namespace.label := [];
                 Namespace.poll_interval := 10; Namespace.wait := false;
                 Namespace.limit := None; Namespace.full := false;
                 Namespace.format := None; Namespace.provider := "local" |} in
  Namespace.wait args = false /\
  main (fun _ => None) (fun _ => provider) "alice" (fun _ => []) args 5 =
    ([Tabulate [[("Job Name", VStr "align"); ("Status", VStr "running");
                 ("Last Update", VNone)]];
      BlankLine], None).
Proof.
  intros busy provider args.
  assert (Hwait : Namespace.wait args = false) by reflexivity.
  split; [exact Hwait|].
  etransitivity;
    [exact (main_without_wait (fun _ => None) (fun _ => provider) "alice"
                              (fun _ => []) args 4 Hwait)
    | reflexivity].
Defined.

Lemma producer_raw_ignores_full (provider : Provider) (query : Query)
  (poll_interval : Z) (fuel : nat) : forall n,
  run provider query true poll_interval true fuel (POLLING n) =
  run provider query false poll_interval true fuel (POLLING n).
Proof.
  induction fuel as [|fuel IH]; intros n; [reflexivity|].
  rewrite !run_S. cbv zeta. unfold format_task at 1 2 3 4.
  destruct (negb (poll_interval =? 0) && _); [|reflexivity].
  destruct (time_sleep poll_interval); [|reflexivity].
  now rewrite IH.
Qed.

(** X14. With [--format provider-json], [main] selects the JSON formatter,
    whose [prepare_output] hands every row back as it is, and runs the
    producer in raw mode: the batches are the provider's raw task data, one
    row per task in the provider's order, untouched by [prepare_row], and
    they are the rows [main] prints; [--full] changes nothing in what the
    producer yields. *)
Theorem main_provider_json (age_to_create_time : option string -> option Z)
  (get_provider : Namespace.t -> Provider) (get_os_user : string)
  (parse_pair_args : list string -> list (string * string))
  (args : Namespace.t) (fuel : nat)
  (Hformat : Namespace.format args = Some "provider-json") :
  let query := main_query age_to_create_time get_os_user parse_pair_args args in
  let poll_interval :=
    if Namespace.wait args then Namespace.poll_interval args else 0 in
  let produced :=
    dstat_job_producer (get_provider args) query (Namespace.full args)
                       poll_interval true (S fuel) in
  select_formatter args = JsonOutput (Namespace.full args) /\
  (forall row, prepare_output (select_formatter args) row = Ok row) /\
  main age_to_create_time get_provider get_os_user parse_pair_args args (S fuel) =
    match print_rows (JsonOutput (Namespace.full args))
                     (concat (batches (fst produced))) with
    | (out, Some e) => (out, Some e)
    | (out, None) => (out, raised_by (fst produced))
    end /\
  (exists m : nat,
     (0 < m)%nat /\
     batches (fst produced) =
       map (fun i => map raw_task_data
                         (lookup_job_tasks (get_provider args) query i))
           (seq 0 m)) /\
  dstat_job_producer (get_provider args) query true poll_interval true (S fuel) =
    dstat_job_producer (get_provider args) query false poll_interval true (S fuel).
Proof.
  intros query poll_interval produced. subst produced.
  assert (Hfmt : select_formatter args = JsonOutput (Namespace.full args))
    by (unfold select_formatter; now rewrite Hformat).
  split; [exact Hfmt|]. split; [now rewrite Hfmt|]. split; [|split].
  - unfold main. rewrite Hfmt, Hformat.
    cbn [String.eqb Ascii.eqb Bool.eqb].
    now rewrite print_batches_concat'.
  - unfold dstat_job_producer.
    destruct (run_shape (get_provider args) query (Namespace.full args)
                        poll_interval true (S fuel) 0) as (m & _ & Hpos & Hb & _).
    exists m. split; [apply Hpos; lia|]. exact Hb.
  - apply producer_raw_ignores_full.
Qed.

Lemma main_provider_json_witness :
  let t1 := dict_task [("name", VStr "operations/17"); ("done", VBool false)] in
  let provider := {| lookup_job_tasks := fun _ _ => [t1] |} in
  let args := {| Namespace.project := Some "my-project"; Namespace.jobs := None;
                 Namespace.users := ["alice"]; Namespace.status := ["*"];
                 Namespace.age := None; Namespace.label := [];
                 Namespace.poll_interval := 10; Namespace.wait := false;
                 Namespace.limit := None; Namespace.full := true;
                 Namespace.format := Some "provider-json";
                 Namespace.provider := "google" |} in
  Namespace.format args = Some "provider-json" /\
  select_formatter args = JsonOutput true /\
  fst (main (fun _ => None) (fun _ => provider) "alice" (fun _ => []) args 3) =
    [JsonDumps [[("name", VStr "operations/17"); ("done", VBool false)]]].
Proof.
  intros t1 provider args.
  assert (Hformat : Namespace.format args = Some "provider-json") by reflexivity.
  split; [exact Hformat|].
  pose proof (main_provider_json (fun _ => None) (fun _ => provider) "alice"
                (fun _ => []) args 2 Hformat) as H.
  cbv zeta in H. destruct H as (Hfmt & _ & Hmain & _).
  split; [exact Hfmt|].
  rewrite Hmain. reflexivity.
Defined.

(** ** The check of the required arguments *)

(** X15. The check at the end of [parse_arguments] lets the local and
    test-fails providers pass whatever the flags are; for the google
    provider it passes when [--project] is given and not empty, and
    otherwise ends with the parser error "argument --project is required".
    A provider missing from the table is a [KeyError]; no attribute lookup
    fails. *)
Theorem check_provider_args_spec (args : Namespace.t) :
  let provider := Namespace.provider args in
  check_provider_args args =
  if (provider =? "google")%string then
    if truthy_opt_str (Namespace.project args) then None
    else Some (ParserError "argument --project is required")
  else if ((provider =? "test-fails") || (provider =? "local"))%string then None
  else Some (KeyError provider).
Proof.
  intros provider. subst provider. unfold check_provider_args.
  cbn [provider_required_args dict_get].
  rewrite !(String.eqb_sym _ (Namespace.provider args)).
  destruct (Namespace.provider args =? "google")%string.
  - cbn [check_required attribute_truthy String.eqb Ascii.eqb Bool.eqb].
    now destruct (truthy_opt_str (Namespace.project args)).
  - destruct (Namespace.provider args =? "test-fails")%string; [reflexivity|].
    now destruct (Namespace.provider args =? "local")%string.
Qed.

(** ** A negative poll interval *)


